(** * Drive-to-Photos migration: the Drive scanner and the Photos uploader

    A shallow embedding of [drive_scanner.py] (class [DriveScanner]) and
    [photos_uploader.py] (class [PhotosUploader]), followed by the
    properties of the traversal and of the duplicate-aware upload loop.

    Python objects are modelled as follows.
    - A [dict] used as a map (the uploaded-photos tracker) is a [gmap].
    - A [dict] used as a record (photo, tracker entry, upload result) is a
      [Record]; a key that may be missing is an [option] field.
    - [self] is a record of the instance attributes, passed explicitly.
    - The remote services (Drive, Photos, the clock) are an explicit world
      that every call threads; exceptions are a sum type. *)

From Stdlib Require Import Ascii.
From stdpp Require Import gmap strings list fin_maps pretty.

Open Scope string_scope.

#[local] Set Warnings "-register-all".

(* ===================================================================== *)
(** ** drive_scanner.py                                                  *)
(* ===================================================================== *)

Module Drive.

(** The reserved MIME type of a folder (the literal of [scan_folder]). *)
Definition FOLDER_MIME : string := "application/vnd.google-apps.folder".

Definition PHOTO_MIME_TYPES : list string :=
  [ "image/jpeg"; "image/png"; "image/gif"; "image/bmp"; "image/webp";
    "image/tiff"; "image/heic"; "image/heif"; "image/raw"; "image/x-raw";
    "image/x-canon-cr2"; "image/x-nikon-nef"; "image/x-sony-arw";
    "image/x-panasonic-rw2"; "image/x-olympus-orf"; "image/x-fuji-raf";
    "image/x-adobe-dng" ].

(** [imageMediaMetadata] of a listed item, restricted to the keys that
    [scan_folder] copies; every key is optional ([dict.get]). *)
Record ImageMeta := mkImageMeta {
  width : option string;
  height : option string;
  rotation : option string;
  cameraMake : option string;
  cameraModel : option string;
  exposureTime : option string;
  aperture : option string;
  isoSpeed : option string;
  focalLength : option string;
  time : option string;
  location : option string
}.

(** One entry of a folder listing, together with the listing of the entry
    itself when it is a folder: a snapshot of the Drive hierarchy below a
    folder.  [item_children] is what [list_files_in_folder (item_id it)]
    yields, all pages concatenated; it is only ever read for an entry whose
    MIME type is [FOLDER_MIME].  [item_imageMediaMetadata = None] stands for
    a missing key or an empty dict (both are falsy in [if image_meta:]). *)
Inductive DriveItem := mkItem {
  item_id : string;
  item_name : string;
  item_mimeType : string;
  item_size : option string;
  item_createdTime : option string;
  item_modifiedTime : option string;
  item_md5Checksum : option string;
  item_imageMediaMetadata : option ImageMeta;
  item_children : list DriveItem
}.

(** The [photo_data] dict built by [scan_folder]. *)
Record PhotoData := mkPhotoData {
  pd_id : string;
  pd_name : string;
  pd_path : string;
  pd_mimeType : string;
  pd_size : option string;
  pd_createdTime : option string;
  pd_modifiedTime : option string;
  pd_md5Checksum : option string;
  pd_metadata : option ImageMeta
}.

(** The mutable attributes of a [DriveScanner] instance. *)
Record DriveScanner := mkScanner {
  photos_found : list PhotoData;
  empty_folders : list string
}.

Definition is_folder (it : DriveItem) : bool :=
  bool_decide (item_mimeType it = FOLDER_MIME).

(** [is_photo]: [mime_type in PHOTO_MIME_TYPES]. *)
Definition is_photo (mime_type : string) : bool :=
  bool_decide (mime_type ∈ PHOTO_MIME_TYPES).

(** [full_path = f"{current_path}/{item_name}"]. *)
Definition full_path (current_path : string) (it : DriveItem) : string :=
  current_path +:+ "/" +:+ item_name it.

Definition photo_data_of (current_path : string) (it : DriveItem) : PhotoData :=
  {| pd_id := item_id it;
     pd_name := item_name it;
     pd_path := full_path current_path it;
     pd_mimeType := item_mimeType it;
     pd_size := item_size it;
     pd_createdTime := item_createdTime it;
     pd_modifiedTime := item_modifiedTime it;
     pd_md5Checksum := item_md5Checksum it;
     pd_metadata := item_imageMediaMetadata it |}.

(** [get_folder_name]: the alias of the root, else the name the service
    returns, else (the call raised, or the reply has no name) the id. *)
Definition get_folder_name (name_of : string → option string)
    (folder_id : string) : string :=
  if bool_decide (folder_id = "root") then "My Drive"
  else default folder_id (name_of folder_id).

(** The accumulators of the first loop of [scan_folder]: [file_count],
    [subfolder_count], the [subfolders] list of (id, path) pairs, and the
    scanner whose [photos_found] grows. *)
Record ListingAcc := mkAcc {
  file_count : nat;
  subfolder_count : nat;
  subfolders : list (string * string);
  acc_scanner : DriveScanner
}.

(** One iteration of [for item in self.list_files_in_folder(folder_id)]. *)
Definition list_step (current_path : string) (acc : ListingAcc)
    (it : DriveItem) : ListingAcc :=
  if is_folder it then
    {| file_count := file_count acc;
       subfolder_count := S (subfolder_count acc);
       subfolders := subfolders acc ++ [(item_id it, full_path current_path it)];
       acc_scanner := acc_scanner acc |}
  else
    {| file_count := S (file_count acc);
       subfolder_count := subfolder_count acc;
       subfolders := subfolders acc;
       acc_scanner :=
         if is_photo (item_mimeType it) then
           {| photos_found :=
                photos_found (acc_scanner acc) ++ [photo_data_of current_path it];
              empty_folders := empty_folders (acc_scanner acc) |}
         else acc_scanner acc |}.

Definition list_loop (current_path : string) (items : list DriveItem)
    (sc : DriveScanner) : ListingAcc :=
  fold_left (list_step current_path) items
    {| file_count := 0; subfolder_count := 0; subfolders := [];
       acc_scanner := sc |}.

(** [self.empty_folders.append(subfolder_path)]. *)
Definition append_empty (subfolder_path : string) (sc : DriveScanner)
    : DriveScanner :=
  {| photos_found := photos_found sc;
     empty_folders := empty_folders sc ++ [subfolder_path] |}.

(** The second loop of [scan_folder], [for subfolder_id, subfolder_path in
    subfolders], for a given recursive call.  It walks the listing again
    and visits its folder entries in order: these are exactly the entries
    the first loop put in [subfolders], with the same paths (lemma
    [subfolders_of_listing]); walking the listing keeps the recursion of
    [scan_folder] structural. *)
Section SubfolderLoop.

Variable scan_folder :
  DriveItem → string → DriveScanner → (nat * nat) * DriveScanner.
Variable current_path : string.

Fixpoint scan_subfolders (items : list DriveItem) (sc : DriveScanner)
    : DriveScanner :=
  match items with
  | [] => sc
  | it :: rest =>
      if is_folder it then
        let '((sub_files, sub_folders), sc') :=
          scan_folder it (full_path current_path it) sc in
        scan_subfolders rest
          (if Nat.eqb sub_files 0 && Nat.eqb sub_folders 0
           then append_empty (full_path current_path it) sc'
           else sc')
      else scan_subfolders rest sc
  end.

End SubfolderLoop.

Section Scan.

(** The reply of [files().get(fileId, fields='name')] for a folder id:
    [None] when the call raises or the reply carries no name. *)
Variable name_of : string → option string.

(** [scan_folder]: it returns the pair [(file_count, subfolder_count)]
    and the updated scanner. *)
Fixpoint scan_folder (folder : DriveItem) (current_path : string)
    (sc : DriveScanner) {struct folder} : (nat * nat) * DriveScanner :=
  let current_path :=
    if bool_decide (current_path = "")
    then get_folder_name name_of (item_id folder) else current_path in
  let acc := list_loop current_path (item_children folder) sc in
  ((file_count acc, subfolder_count acc),
   scan_subfolders scan_folder current_path (item_children folder)
     (acc_scanner acc)).

(** [scan]: both lists are reset, then the root is scanned with an empty
    path.  [root] is the snapshot of the folder [root_folder_id or 'root']. *)
Definition scan (root : DriveItem) (sc : DriveScanner)
    : list PhotoData * list string :=
  let sc0 := {| photos_found := []; empty_folders := [] |} in
  let sc1 := snd (scan_folder root "" sc0) in
  (photos_found sc1, empty_folders sc1).

(** [scan_paths], given for every path the outcome of
    [resolve_folder_path]: the snapshot of the folder found, or [None]
    (the path is then skipped). *)
Definition scan_paths (folder_paths : list (string * option DriveItem))
    (sc : DriveScanner) : list PhotoData * list string :=
  let sc0 := {| photos_found := []; empty_folders := [] |} in
  let sc1 :=
    fold_left (fun sc '(folder_path, resolved) =>
                 match resolved with
                 | Some folder => snd (scan_folder folder folder_path sc)
                 | None => sc
                 end) folder_paths sc0 in
  (photos_found sc1, empty_folders sc1).

End Scan.

(** *** Reference notions of the specification, on the snapshot *)

(** The direct children of a folder that are files (photo or not). *)
Definition direct_files (folder : DriveItem) : list DriveItem :=
  filter (λ it, is_folder it = false) (item_children folder).

(** The direct children of a folder that are folders. *)
Definition direct_subfolders (folder : DriveItem) : list DriveItem :=
  filter (λ it, is_folder it = true) (item_children folder).

(** Recursively empty, in the words of the specification: no direct file,
    and every direct subfolder recursively empty. *)
Fixpoint recursively_empty (folder : DriveItem) : bool :=
  (fix all_empty (items : list DriveItem) : bool :=
     match items with
     | [] => true
     | it :: rest =>
         (if is_folder it then recursively_empty it else false)
         && all_empty rest
     end) (item_children folder).

(** A folder entry with the given name and listing. *)
Definition folder_item (id name : string) (children : list DriveItem)
    : DriveItem :=
  mkItem id name FOLDER_MIME None None None None None children.

(** A file entry with the given name and MIME type. *)
Definition file_item (id name mime : string) : DriveItem :=
  mkItem id name mime None None None None None [].

(** The folders strictly below a folder that a scan working under
    [current_path] visits, each with the path it is visited under, in the
    order in which the scan leaves them. *)
Section Below.

Variable folders_below : string → DriveItem → list (string * DriveItem).
Variable current_path : string.

Fixpoint below_listing (items : list DriveItem)
    : list (string * DriveItem) :=
  match items with
  | [] => []
  | it :: rest =>
      if is_folder it then
        (folders_below (full_path current_path it) it
         ++ (full_path current_path it, it) :: below_listing rest)%list
      else below_listing rest
  end.

End Below.

Fixpoint folders_below (current_path : string) (folder : DriveItem)
    : list (string * DriveItem) :=
  below_listing folders_below current_path (item_children folder).

(** A folder whose listing is empty. *)
Definition is_leaf (folder : DriveItem) : bool :=
  match item_children folder with [] => true | _ :: _ => false end.

(** The path a scan of [folder] started with [current_path] works under. *)
Definition scan_path (name_of : string → option string)
    (folder : DriveItem) (current_path : string) : string :=
  if bool_decide (current_path = "")
  then get_folder_name name_of (item_id folder) else current_path.

End Drive.

(* ===================================================================== *)
(** ** photos_uploader.py                                                *)
(* ===================================================================== *)

Module Photos.

(** *** Python values and dict-shaped records *)

(** What [photo.get('md5Checksum', '')] can be: [None] (a JSON null written
    by the scanner for an item without checksum) or a string. *)
Inductive pyval :=
  | PyNone
  | PyStr (s : string).

(** Truthiness, as in [if md5_checksum:]. *)
Definition truthy (v : pyval) : bool :=
  match v with
  | PyNone => false
  | PyStr s => negb (bool_decide (s = ""))
  end.

(** Truthiness of an optional string, as in [album_name or ...] and
    [if album_id:]. *)
Definition truthy_opt (o : option string) : bool :=
  match o with
  | None => false
  | Some s => negb (bool_decide (s = ""))
  end.

(** A photo dict of the input list.  [md5Checksum = None] is a missing key. *)
Record Photo := mkPhoto {
  id : string;
  path : string;
  mimeType : string;
  md5Checksum : option pyval
}.

(** An entry of the tracker.  Only [file_id] is ever read back
    ([entry.get('file_id')]): [None] is a missing key. *)
Record TrackerEntry := mkEntry {
  te_file_id : option string;
  te_photos_id : string;
  te_path : string;
  te_uploaded_at : string
}.

(** [photo.get('md5Checksum', '')]. *)
Definition photo_md5 (photo : Photo) : pyval :=
  default (PyStr "") (md5Checksum photo).

Inductive Status := SUCCESS | SKIPPED_DUPLICATE | FAILED | ERROR.

(** An upload result dict.  The keys [success], [status], [photos_id] and
    [error] are set while the asset is processed, so they are optional. *)
Record UploadResult := mkResult {
  r_path : string;
  r_file_id : string;
  r_timestamp : string;
  r_md5Checksum : pyval;
  r_success : option bool;
  r_status : option Status;
  r_photos_id : option string;
  r_error : option string
}.

Definition set_success (b : bool) (r : UploadResult) : UploadResult :=
  mkResult (r_path r) (r_file_id r) (r_timestamp r) (r_md5Checksum r)
           (Some b) (r_status r) (r_photos_id r) (r_error r).

Definition set_status (st : Status) (r : UploadResult) : UploadResult :=
  mkResult (r_path r) (r_file_id r) (r_timestamp r) (r_md5Checksum r)
           (r_success r) (Some st) (r_photos_id r) (r_error r).

Definition set_photos_id (pid : string) (r : UploadResult) : UploadResult :=
  mkResult (r_path r) (r_file_id r) (r_timestamp r) (r_md5Checksum r)
           (r_success r) (r_status r) (Some pid) (r_error r).

Definition set_error (e : string) (r : UploadResult) : UploadResult :=
  mkResult (r_path r) (r_file_id r) (r_timestamp r) (r_md5Checksum r)
           (r_success r) (r_status r) (r_photos_id r) (Some e).

(** The dict returned by [upload_to_photos]. *)
Record UploadOutcome := mkOutcome {
  uo_success : bool;
  uo_error : option string;
  uo_mediaItem_id : option string
}.

(** *** The clock *)

Record datetime := mkDatetime {
  year : nat; month : nat; day : nat;
  hour : nat; minute : nat; second : nat; microsecond : nat
}.

(** Decimal digits of [n], left-padded with zeros to [width] digits. *)
Definition zero_pad (width n : nat) : string :=
  let s := pretty n in
  String.concat "" (replicate (width - String.length s) "0") +:+ s.

(** [strftime('%Y-%m-%d %H:%M')]. *)
Definition strftime_Ymd_HM (d : datetime) : string :=
  zero_pad 4 (year d) +:+ "-" +:+ zero_pad 2 (month d) +:+ "-"
  +:+ zero_pad 2 (day d) +:+ " " +:+ zero_pad 2 (hour d) +:+ ":"
  +:+ zero_pad 2 (minute d).

(** [isoformat()] of a naive datetime. *)
Definition isoformat (d : datetime) : string :=
  zero_pad 4 (year d) +:+ "-" +:+ zero_pad 2 (month d) +:+ "-"
  +:+ zero_pad 2 (day d) +:+ "T" +:+ zero_pad 2 (hour d) +:+ ":"
  +:+ zero_pad 2 (minute d) +:+ ":" +:+ zero_pad 2 (second d)
  +:+ (if Nat.eqb (microsecond d) 0 then ""
       else "." +:+ zero_pad 6 (microsecond d)).

(** *** The remote services *)

(** A [requests] response: [json] is what [response.json()] decodes to, or
    the message of the exception it (or reading a malformed reply) raises. *)
Record Response (A : Type) := mkResponse {
  status_code : nat;
  text : string;
  json : string + A
}.
Arguments mkResponse {A} _ _ _.
Arguments status_code {A} _.
Arguments text {A} _.
Arguments json {A} _.

(** The [status] dict of an element of [newMediaItemResults]: its
    [message] key, and what [str()] prints for the dict. *)
Record ItemStatus := mkItemStatus {
  message : option string;
  status_str : string
}.

(** An element of [newMediaItemResults]: the optional [status] dict and the
    optional [id] of the optional [mediaItem] dict. *)
Record NewMediaItemResult := mkNewItem {
  nmi_status : option ItemStatus;
  nmi_mediaItem_id : option string
}.

(** Everything outside the process.  Each operation takes the world and
    returns the next one, with either a value or the message ([str(e)]) of
    the exception it raises.
    - [datetime_now]: [datetime.now()];
    - [path_name]: [Path(file_path).name];
    - [drive_get_media]: the whole chunked download of [download_from_drive];
    - [post_albums title], [post_uploads file_data file_name mime_type],
      [post_batchCreate upload_token file_name albumId]: the three
      [requests.post] calls;
    - [json_dump_tracker]: [_save_uploaded_tracker], [None] meaning that
      the file was written. *)
Record Backend := mkBackend {
  World : Type;
  datetime_now : World → datetime * World;
  path_name : string → string;
  drive_get_media : string → World → (string + list Byte.byte) * World;
  post_albums : string → World → (string + Response (option string)) * World;
  post_uploads : list Byte.byte → string → string → World →
                 (string + Response unit) * World;
  post_batchCreate : string → string → option string → World →
                     (string + Response (list NewMediaItemResult)) * World;
  json_dump_tracker : gmap string TrackerEntry → World → option string * World
}.

(** The calls that leave the process, in the order they are made. *)
Inductive Event :=
  | EvCreateAlbum (title : string)
  | EvDownload (file_id : string)
  | EvPostUploads (file_name : string)
  | EvBatchCreate (file_name : string)
  | EvSaveTracker (tracker : gmap string TrackerEntry).

Definition is_create_album (e : Event) : bool :=
  match e with EvCreateAlbum _ => true | _ => false end.

(** The attributes of a [PhotosUploader] instance. *)
Record PhotosUploader := mkUploader {
  upload_results : list UploadResult;
  album_name : string;
  album_id : option string;
  skip_duplicates : bool;
  uploaded_photos : gmap string TrackerEntry
}.

Definition set_upload_results (l : list UploadResult) (u : PhotosUploader) :=
  mkUploader l (album_name u) (album_id u) (skip_duplicates u)
             (uploaded_photos u).

Definition set_album_id (a : option string) (u : PhotosUploader) :=
  mkUploader (upload_results u) (album_name u) a (skip_duplicates u)
             (uploaded_photos u).

Definition set_uploaded_photos (m : gmap string TrackerEntry)
    (u : PhotosUploader) :=
  mkUploader (upload_results u) (album_name u) (album_id u)
             (skip_duplicates u) m.

(** [is_duplicate]. *)
Definition is_duplicate (self : PhotosUploader) (md5_checksum : pyval)
    (file_id : string) : bool :=
  if negb (skip_duplicates self) then false
  else if truthy md5_checksum
          && match md5_checksum with
             | PyStr s => bool_decide (is_Some (uploaded_photos self !! s))
             | PyNone => false
             end
  then true
  else existsb (λ kv : string * TrackerEntry,
                  bool_decide (te_file_id kv.2 = Some file_id))
               (map_to_list (uploaded_photos self)).

(** *** State and exceptions *)

(** What a method call can touch: the world, [self], and the record of the
    calls made so far. *)
Record Sys (B : Backend) := mkSys {
  sys_world : World B;
  sys_self : PhotosUploader;
  sys_log : list Event
}.
Arguments mkSys {B} _ _ _.
Arguments sys_world {B} _.
Arguments sys_self {B} _.
Arguments sys_log {B} _.

(** A method body: it ends with a value or with a raised exception (its
    message), and in both cases leaves a state behind. *)
Definition M (B : Backend) (A : Type) : Type := Sys B → (string + A) * Sys B.

Definition ret {B A} (a : A) : M B A := λ s, (inr a, s).

Definition raise {B A} (e : string) : M B A := λ s, (inl e, s).

Definition bind {B A C} (m : M B A) (f : A → M B C) : M B C :=
  λ s, match m s with
       | (inl e, s') => (inl e, s')
       | (inr a, s') => f a s'
       end.

(** The instances behind stdpp's [x ← m; k] and [m;; k]. *)
#[export] Instance M_ret {B} : MRet (M B) := λ A, @ret B A.
#[export] Instance M_bind {B} : MBind (M B) := λ A C f m, @bind B A C m f.

Definition get_self {B} : M B PhotosUploader := λ s, (inr (sys_self s), s).

Definition modify_self {B} (f : PhotosUploader → PhotosUploader) : M B unit :=
  λ s, (inr tt, mkSys (sys_world s) (f (sys_self s)) (sys_log s)).

(** A call to the outside: the event is recorded, the world answers. *)
Definition call {B A} (ev : Event) (op : World B → (string + A) * World B)
    : M B A :=
  λ s, let '(r, w) := op (sys_world s) in
       (r, mkSys w (sys_self s) (sys_log s ++ [ev])).

(** [datetime.now()]. *)
Definition now {B} : M B datetime :=
  λ s, let '(d, w) := datetime_now B (sys_world s) in
       (inr d, mkSys w (sys_self s) (sys_log s)).

(** [response.json()]. *)
Definition response_json {B A} (response : Response A) : M B A :=
  match json response with
  | inl e => raise e
  | inr a => ret a
  end.

Section Uploader.

Context {B : Backend}.

(** [__init__]: the clock is read only when no album name is given
    ([album_name or ...]); [tracker_file] is what [_load_uploaded_tracker]
    reads, [None] for a missing or unreadable file. *)
Definition init (album_name : option string) (skip_duplicates : bool)
    (tracker_file : option (gmap string TrackerEntry)) (w : World B)
    : Sys B :=
  let '(name, w') :=
    if truthy_opt album_name then (default "" album_name, w)
    else let '(d, w') := datetime_now B w in
         ("Drive Import " +:+ strftime_Ymd_HM d, w') in
  mkSys w'
    {| upload_results := [];
       album_name := name;
       album_id := None;
       skip_duplicates := skip_duplicates;
       uploaded_photos := default ∅ tracker_file |}
    [].

(** [_save_uploaded_tracker]. *)
Definition _save_uploaded_tracker : M B unit :=
  self ← get_self;
  call (EvSaveTracker (uploaded_photos self))
       (λ w, let '(r, w') := json_dump_tracker B (uploaded_photos self) w in
             (match r with Some e => inl e | None => inr tt end, w')).

(** [record_upload]. *)
Definition record_upload (md5_checksum : pyval) (file_id photos_id path : string)
    : M B unit :=
  match md5_checksum with
  | PyStr key =>
      if truthy md5_checksum then
        d ← now;
        modify_self (λ self,
          set_uploaded_photos
            (<[key := {| te_file_id := Some file_id;
                         te_photos_id := photos_id;
                         te_path := path;
                         te_uploaded_at := isoformat d |}]>
               (uploaded_photos self)) self);;
        _save_uploaded_tracker
      else ret tt
  | PyNone => ret tt
  end.

(** [create_album]. *)
Definition create_album : M B (option string) :=
  self ← get_self;
  response ← call (EvCreateAlbum (album_name self))
                  (post_albums B (album_name self));
  if negb (Nat.eqb (status_code response) 200) then
    raise ("Failed to create album: " +:+ pretty (status_code response)
           +:+ " - " +:+ text response)
  else
    result ← response_json response;
    modify_self (set_album_id result);;
    ret result.

(** [download_from_drive]. *)
Definition download_from_drive (file_id file_name : string)
    : M B (list Byte.byte) :=
  call (EvDownload file_id) (drive_get_media B file_id).

(** [upload_to_photos]. *)
Definition upload_to_photos (file_data : list Byte.byte)
    (file_name mime_type : string) (album_id : option string)
    : M B UploadOutcome :=
  response ← call (EvPostUploads file_name)
                  (post_uploads B file_data file_name mime_type);
  if negb (Nat.eqb (status_code response) 200) then
    ret {| uo_success := false;
           uo_error := Some ("Upload failed: "
                             +:+ pretty (status_code response)
                             +:+ " - " +:+ text response);
           uo_mediaItem_id := None |}
  else
    let upload_token := text response in
    response ← call (EvBatchCreate file_name)
                    (post_batchCreate B upload_token file_name
                       (if truthy_opt album_id then album_id else None));
    if negb (Nat.eqb (status_code response) 200) then
      ret {| uo_success := false;
             uo_error := Some ("Media item creation failed: "
                               +:+ pretty (status_code response)
                               +:+ " - " +:+ text response);
             uo_mediaItem_id := None |}
    else
      new_items ← response_json response;
      match new_items with
      | item :: _ =>
          if bool_decide ((nmi_status item ≫= message) = Some "Success")
          then ret {| uo_success := true;
                      uo_error := None;
                      uo_mediaItem_id := nmi_mediaItem_id item |}
          else ret {| uo_success := false;
                      uo_error :=
                        Some (match nmi_status item with
                              | Some st => status_str st
                              | None => "{}"
                              end);
                      uo_mediaItem_id := None |}
      | [] =>
          ret {| uo_success := false;
                 uo_error := Some "Unknown error";
                 uo_mediaItem_id := None |}
      end.

(** The body of the [try:] block of [upload_all], run on the [result]
    dict under construction.  It gives back the dict as it stands when
    the block is left, with the exception that left it, if any. *)
Definition try_block (file_id file_path file_name mime_type : string)
    (md5_checksum : pyval) (result : UploadResult) (s : Sys B)
    : option string * UploadResult * Sys B :=
  match download_from_drive file_id file_name s with
  | (inl e, s1) => (Some e, result, s1)
  | (inr file_data, s1) =>
      match upload_to_photos file_data file_name mime_type
              (album_id (sys_self s1)) s1 with
      | (inl e, s2) => (Some e, result, s2)
      | (inr upload_result, s2) =>
          let result := set_success (uo_success upload_result) result in
          if uo_success upload_result then
            let result := set_status SUCCESS result in
            let photos_id := default "" (uo_mediaItem_id upload_result) in
            let result := set_photos_id photos_id result in
            match record_upload md5_checksum file_id photos_id file_path s2 with
            | (inl e, s3) => (Some e, result, s3)
            | (inr _, s3) => (None, result, s3)
            end
          else
            let result := set_status FAILED result in
            let result :=
              set_error (default "Unknown error" (uo_error upload_result))
                        result in
            (None, result, s2)
      end
  end.

(** [self.upload_results.append(result)]. *)
Definition append_result (result : UploadResult) : M B unit :=
  modify_self (λ self,
    set_upload_results (upload_results self ++ [result]) self).

(** The [try: ... except Exception as e: ...] statement of [upload_all]
    followed by [self.upload_results.append(result)]: the handler marks
    the dict as it stood when the exception was raised. *)
Definition try_except_append (file_id file_path file_name mime_type : string)
    (md5_checksum : pyval) (result : UploadResult) : M B unit :=
  λ s,
    let '(exn, result, s') :=
      try_block file_id file_path file_name mime_type md5_checksum
                result s in
    let result :=
      match exn with
      | Some e => set_error e (set_status ERROR (set_success false result))
      | None => result
      end in
    append_result result s'.

(** One iteration of [for i, photo in enumerate(photos, 1)]. *)
Definition upload_one (photo : Photo) : M B unit :=
  let file_id := id photo in
  let file_path := path photo in
  let file_name := path_name B file_path in
  let mime_type := mimeType photo in
  let md5_checksum := photo_md5 photo in
  self ← get_self;
  if is_duplicate self md5_checksum file_id then
    d ← now;
    append_result
      {| r_path := file_path; r_file_id := file_id;
         r_timestamp := isoformat d; r_md5Checksum := md5_checksum;
         r_success := Some true; r_status := Some SKIPPED_DUPLICATE;
         r_photos_id := None; r_error := None |}
  else
    d ← now;
    try_except_append file_id file_path file_name mime_type md5_checksum
      {| r_path := file_path; r_file_id := file_id;
         r_timestamp := isoformat d; r_md5Checksum := md5_checksum;
         r_success := None; r_status := None;
         r_photos_id := None; r_error := None |}.

(** The loop of [upload_all]. *)
Fixpoint upload_loop (photos : list Photo) : M B unit :=
  match photos with
  | [] => ret tt
  | photo :: rest => upload_one photo;; upload_loop rest
  end.

(** [upload_all], for an explicit list of photos. *)
Definition upload_all (photos : list Photo) : M B (list UploadResult) :=
  create_album;;
  modify_self (set_upload_results []);;
  upload_loop photos;;
  self ← get_self;
  ret (upload_results self).

(** [upload_all] up to the point where the photos [done] have been
    processed: the state a run over [done ++ rest] is in at that point
    (lemma [upload_all_through_prefix]). *)
Definition upload_all_until (done : list Photo) : M B unit :=
  create_album;;
  modify_self (set_upload_results []);;
  upload_loop done.

(** A run, as [run_upload] of [main.py] makes it: a fresh instance, then
    [upload_all]. *)
Definition run (album_name : option string) (skip_duplicates : bool)
    (tracker_file : option (gmap string TrackerEntry))
    (photos : list Photo) (w : World B)
    : (string + list UploadResult) * Sys B :=
  upload_all photos (init album_name skip_duplicates tracker_file w).

End Uploader.

(** *** Notions used by the properties *)

(** Both [success] and [status] are set, and [success] is true exactly for
    the statuses SUCCESS and SKIPPED_DUPLICATE. *)
Definition result_consistent (r : UploadResult) : Prop :=
  ∃ (b : bool) (st : Status),
    r_success r = Some b ∧ r_status r = Some st
    ∧ (b = true ↔ st = SUCCESS ∨ st = SKIPPED_DUPLICATE).

(** The result belongs to the photo. *)
Definition result_of (photo : Photo) (r : UploadResult) : Prop :=
  r_file_id r = id photo ∧ r_path r = path photo
  ∧ r_md5Checksum r = photo_md5 photo.

(** The calls of an event list that reach the network or the tracker
    file for an asset. *)
Definition is_save (e : Event) : bool :=
  match e with EvSaveTracker _ => true | _ => false end.

End Photos.

(* ===================================================================== *)
(** ** Concrete inputs                                                   *)
(* ===================================================================== *)

Module Fixtures.
Import Drive Photos.

(** The tree [root/{A/, B/photo1.jpg, C/D/}]. *)
Definition tree_A_B_CD : DriveItem :=
  folder_item "root" "My Drive"
    [ folder_item "idA" "A" [];
      folder_item "idB" "B" [file_item "idP" "photo1.jpg" "image/jpeg"];
      folder_item "idC" "C" [folder_item "idD" "D" []] ].

(** Its folder [C], which holds the empty folder [D] and nothing else. *)
Definition folder_C : DriveItem :=
  folder_item "idC" "C" [folder_item "idD" "D" []].

(** A folder with a photo, a PDF and two subfolders, one of them not empty. *)
Definition mixed_folder : DriveItem :=
  folder_item "idM" "M"
    [ file_item "id1" "a.heic" "image/heic";
      file_item "id2" "b.pdf" "application/pdf";
      folder_item "id3" "empty" [];
      folder_item "id4" "full" [file_item "id5" "c.png" "image/png"] ].

(** No folder name can be looked up: [get_folder_name] falls back. *)
Definition no_names : string → option string := λ _, None.

Definition no_scanner : DriveScanner :=
  {| photos_found := []; empty_folders := [] |}.

(** The part of a path after its last [/]. *)
Fixpoint after_last_slash (acc s : string) : string :=
  match s with
  | EmptyString => acc
  | String c rest =>
      if bool_decide (c = "/"%char) then after_last_slash "" rest
      else after_last_slash (acc +:+ String c "") rest
  end.

(** A scripted world: the album request answers [album_status], the
    [batchCreate] request answers [batch_status] with body ["boom"], and
    the first [failing_downloads] downloads raise.  The world counts the
    downloads made. *)
Definition scripted (album_status batch_status failing_downloads : nat)
    : Backend :=
  {| World := nat;
     datetime_now := λ w, (mkDatetime 2024 3 5 9 7 30 0, w);
     path_name := after_last_slash "";
     drive_get_media := λ _ w,
       (if Nat.ltb w failing_downloads then inl "download timed out" else inr [],
        S w);
     post_albums := λ _ w,
       (inr (mkResponse album_status "denied" (inr (Some "album-1"))), w);
     post_uploads := λ _ file_name _ w,
       (inr (mkResponse 200 ("token-" +:+ file_name) (inl "not JSON")), w);
     post_batchCreate := λ _ file_name _ w,
       (inr (mkResponse batch_status "boom"
               (inr [ mkNewItem
                        (Some (mkItemStatus (Some "Success")
                                            "{'message': 'Success'}"))
                        (Some ("photo-" +:+ file_name)) ])), w);
     json_dump_tracker := λ _ w, (None, w) |}.

(** Every request succeeds. *)
Definition all_ok : Backend := scripted 200 200 0.

(** [batchCreate] answers HTTP 500 with body ["boom"]. *)
Definition batch_500 : Backend := scripted 200 500 0.

(** Album creation answers HTTP 403. *)
Definition album_403 : Backend := scripted 403 200 0.

Definition photo1 : Photo :=
  mkPhoto "f1" "My Drive/Photos/a.jpg" "image/jpeg" (Some (PyStr "abc123")).

(** Same content as [photo1], another file and path. *)
Definition photo2 : Photo :=
  mkPhoto "f2" "My Drive/Photos/copy/a.jpg" "image/jpeg" (Some (PyStr "abc123")).

(** The file of [photo1] again, with new content. *)
Definition photo1_edited : Photo :=
  mkPhoto "f1" "My Drive/Photos/a.jpg" "image/jpeg" (Some (PyStr "fff999")).

(** A tracker that holds the upload of [photo1]. *)
Definition tracker1 : gmap string TrackerEntry :=
  {[ "abc123" := mkEntry (Some "f1") "photo-a.jpg" "My Drive/Photos/a.jpg"
                         "2024-03-05T09:07:30" ]}.

(** A fresh instance with duplicate-skipping set as given. *)
Definition fresh (B : Backend) (skip : bool)
    (tracker_file : option (gmap string TrackerEntry)) (w : World B) : Sys B :=
  init (Some "Holiday") skip tracker_file w.

(** The state of a fresh instance that skips duplicates and has loaded
    [tracker1]. *)
Definition with_tracker1 : Sys all_ok :=
  fresh all_ok true (Some tracker1) 0%nat.

(** Two runs over [photo1; photo2] in a world where every request
    succeeds, the second from the tracker the first one left. *)
Definition ok_run1 : (string + list UploadResult) * Sys all_ok :=
  run (B:=all_ok) None true None [photo1; photo2] 0%nat.

Definition ok_run2 : (string + list UploadResult) * Sys all_ok :=
  run (B:=all_ok) None true
      (Some (uploaded_photos (sys_self ok_run1.2))) [photo1; photo2] 0%nat.

(** The list a call returned, and no result when it raised. *)
Definition returned (x : string + list UploadResult) : list UploadResult :=
  match x with inr l => l | inl _ => [] end.

(** A run over [photo1] against a [batchCreate] that answers HTTP 500. *)
Definition batch_500_run : (string + list UploadResult) * Sys batch_500 :=
  run (B:=batch_500) None true None [photo1] 0%nat.

(** A run that does not skip duplicates, over two photos with the same
    checksum, and the state of that run once the first is processed. *)
Definition no_skip_start : Sys all_ok := fresh all_ok false None 0%nat.

Definition no_skip_mid : (string + unit) * Sys all_ok :=
  upload_all_until [photo1] no_skip_start.

Definition no_skip_end : (string + list UploadResult) * Sys all_ok :=
  upload_all ([photo1] ++ [photo2]) no_skip_start.

End Fixtures.

(* ===================================================================== *)
(** ** Further notions and inputs for the uploader                       *)
(* ===================================================================== *)

Module Pipeline.
Import Photos Fixtures.

(** The file ids of the downloads in a list of calls, in order. *)
Definition downloads (evs : list Event) : list string :=
  omap (λ e, match e with EvDownload file_id => Some file_id | _ => None end)
       evs.

(** The calls one photo can cause, in the order of [upload_all]: the
    download, the byte upload, the registration and the tracker write. *)
Definition call_order (file_id file_name : string)
    (tracker : gmap string TrackerEntry) : list Event :=
  [ EvDownload file_id; EvPostUploads file_name; EvBatchCreate file_name;
    EvSaveTracker tracker ].

(** The result was not skipped. *)
Definition transferred (r : UploadResult) : bool :=
  match r_status r with
  | Some SKIPPED_DUPLICATE => false
  | _ => true
  end.

(** A scripted world with one knob per call.  [download] is the outcome of
    every download, [uploads_status] the status of the byte upload,
    [items] the decoded [newMediaItemResults] of a [batchCreate] answered
    with HTTP 200, [save_error] the exception of the tracker write. *)
Record Script := mkScript {
  sc_download : string + list Byte.byte;
  sc_uploads_status : nat;
  sc_items : string + list NewMediaItemResult;
  sc_save_error : option string
}.

Definition backend_of (sc : Script) : Backend :=
  {| World := nat;
     datetime_now := λ w, (mkDatetime 2024 3 5 9 7 30 0, w);
     path_name := after_last_slash "";
     drive_get_media := λ _ w, (sc_download sc, w);
     post_albums := λ _ w,
       (inr (mkResponse 200 "{}" (inr (Some "album-1"))), w);
     post_uploads := λ _ file_name _ w,
       (inr (mkResponse (sc_uploads_status sc) ("token-" +:+ file_name)
                        (inl "not JSON")), w);
     post_batchCreate := λ _ _ _ w,
       (inr (mkResponse 200 "{}" (sc_items sc)), w);
     json_dump_tracker := λ _ w, (sc_save_error sc, w) |}.

Definition item_ok : NewMediaItemResult :=
  mkNewItem (Some (mkItemStatus (Some "Success") "{'message': 'Success'}"))
            (Some "media-1").

Definition item_rejected : NewMediaItemResult :=
  mkNewItem (Some (mkItemStatus (Some "Failed") "{'message': 'Failed'}")) None.

Definition script_ok : Script :=
  mkScript (inr []) 200 (inr [item_ok]) None.

Definition script_download_raises : Script :=
  mkScript (inl "HttpError 404") 200 (inr [item_ok]) None.

Definition script_uploads_503 : Script :=
  mkScript (inr []) 503 (inr [item_ok]) None.

Definition script_save_raises : Script :=
  mkScript (inr []) 200 (inr [item_ok]) (Some "disk full").

Definition script_rejected : Script :=
  mkScript (inr []) 200 (inr [item_rejected]) None.

(** A photo without the [md5Checksum] key. *)
Definition photo_no_md5 : Photo :=
  mkPhoto "f9" "My Drive/Photos/n.jpg" "image/jpeg" None.

(** A photo whose checksum is a JSON null. *)
Definition photo_null_md5 : Photo :=
  mkPhoto "f8" "My Drive/Photos/m.jpg" "image/jpeg" (Some PyNone).

(** The tracker of a first run. *)
Definition no_tracker : gmap string TrackerEntry := ∅.

(** A fresh instance of the given script, holding an album id. *)
Definition started (sc : Script) (skip : bool)
    (tracker : gmap string TrackerEntry) : Sys (backend_of sc) :=
  mkSys (0%nat : World (backend_of sc))
        (mkUploader [] "Holiday" (Some "album-1") skip tracker) [].

End Pipeline.

(* ===================================================================== *)
(** ** The tracker file between two runs                                 *)
(* ===================================================================== *)

Module Persistence.
Import Photos Fixtures.

(** [uploaded_photos.json] is part of the world.  [_load_uploaded_tracker]
    is the dict the method of that name returns in a given world: what
    the file decodes to, and [{}] when the file is missing or cannot be
    decoded.  The laws say what the calls of the uploader do to the file.
    - A [_save_uploaded_tracker] that returns leaves a file that decodes
      to the map it dumped: the file is opened with mode ['w'], so the
      dump replaces what was there.
    - The clock, the Drive download and the three requests leave the file
      as it is.
    Nothing is said of a [_save_uploaded_tracker] that raises: the file
    can then be as before, empty, or cut short. *)
Record TrackerFile (B : Backend) := mkTrackerFile {
  _load_uploaded_tracker : World B → gmap string TrackerEntry;
  dump_then_load : ∀ m w,
    (json_dump_tracker B m w).1 = None →
    _load_uploaded_tracker (json_dump_tracker B m w).2 = m;
  now_keeps_file : ∀ w,
    _load_uploaded_tracker (datetime_now B w).2 = _load_uploaded_tracker w;
  get_media_keeps_file : ∀ file_id w,
    _load_uploaded_tracker (drive_get_media B file_id w).2
    = _load_uploaded_tracker w;
  albums_keeps_file : ∀ title w,
    _load_uploaded_tracker (post_albums B title w).2
    = _load_uploaded_tracker w;
  uploads_keeps_file : ∀ file_data file_name mime_type w,
    _load_uploaded_tracker (post_uploads B file_data file_name mime_type w).2
    = _load_uploaded_tracker w;
  batchCreate_keeps_file : ∀ upload_token file_name album w,
    _load_uploaded_tracker
      (post_batchCreate B upload_token file_name album w).2
    = _load_uploaded_tracker w
}.
Arguments _load_uploaded_tracker {B} _ _.
Arguments dump_then_load {B} _ _ _ _.
Arguments now_keeps_file {B} _ _.
Arguments get_media_keeps_file {B} _ _ _.
Arguments albums_keeps_file {B} _ _ _.
Arguments uploads_keeps_file {B} _ _ _ _ _.
Arguments batchCreate_keeps_file {B} _ _ _ _ _.

Section Reload.

Context {B : Backend} (F : TrackerFile B).

(** [__init__] as the program runs it: line 29 settles the album name,
    then line 32 reads the tracker from the file. *)
Definition init_from_file (album_name : option string)
    (skip_duplicates : bool) (w : World B) : Sys B :=
  let s := init album_name skip_duplicates None w in
  mkSys (sys_world s)
        (set_uploaded_photos (_load_uploaded_tracker F (sys_world s))
                             (sys_self s))
        (sys_log s).

(** A run of the program: a fresh instance that loads the tracker file,
    then [upload_all]. *)
Definition run_from_file (album_name : option string) (skip_duplicates : bool)
    (photos : list Photo) (w : World B)
    : (string + list UploadResult) * Sys B :=
  upload_all photos (init_from_file album_name skip_duplicates w).

End Reload.

(** The result of an iteration whose [try] block was left by an exception
    after [result['photos_id']] was set (line 317).  The only statement
    that follows in the block is the call of [record_upload] (line 319),
    which raises when [_save_uploaded_tracker] does: the write of the
    tracker file failed. *)
Definition save_failed (r : UploadResult) : bool :=
  match r_status r, r_photos_id r with
  | Some ERROR, Some _ => true
  | _, _ => false
  end.

(** *** Worlds that hold the file *)

(** The downloads made, the tracker writes tried, and the map the tracker
    file decodes to ([∅] for a missing or unreadable file). *)
Record Disk := mkDisk {
  downloads_made : nat;
  writes_tried : nat;
  stored : gmap string TrackerEntry
}.

(** The first [failing_downloads] downloads raise.  The first
    [failing_writes] writes of the tracker raise after the file was
    opened, which leaves it empty; the later ones go through.  Every
    request is answered with HTTP 200. *)
Definition disk (failing_downloads failing_writes : nat) : Backend :=
  {| World := Disk;
     datetime_now := λ w, (mkDatetime 2024 3 5 9 7 30 0, w);
     path_name := after_last_slash "";
     drive_get_media := λ _ w,
       (if Nat.ltb (downloads_made w) failing_downloads
        then inl "download timed out" else inr [],
        mkDisk (S (downloads_made w)) (writes_tried w) (stored w));
     post_albums := λ _ w,
       (inr (mkResponse 200 "{}" (inr (Some "album-1"))), w);
     post_uploads := λ _ file_name _ w,
       (inr (mkResponse 200 ("token-" +:+ file_name) (inl "not JSON")), w);
     post_batchCreate := λ _ file_name _ w,
       (inr (mkResponse 200 "{}"
               (inr [ mkNewItem
                        (Some (mkItemStatus (Some "Success")
                                            "{'message': 'Success'}"))
                        (Some ("photo-" +:+ file_name)) ])), w);
     json_dump_tracker := λ m w,
       if Nat.ltb (writes_tried w) failing_writes
       then (Some "No space left on device",
             mkDisk (downloads_made w) (S (writes_tried w)) ∅)
       else (None, mkDisk (downloads_made w) (S (writes_tried w)) m) |}.

(** The file of a [disk] world. *)
Definition disk_file (failing_downloads failing_writes : nat)
    : TrackerFile (disk failing_downloads failing_writes) :=
  {| _load_uploaded_tracker := stored : World (disk _ _) → _;
     dump_then_load := λ m w,
       ltac:(simpl; case_match; simpl; intros Hdump;
             [discriminate Hdump | reflexivity]);
     now_keeps_file := λ _, eq_refl;
     get_media_keeps_file := λ _ _, eq_refl;
     albums_keeps_file := λ _ _, eq_refl;
     uploads_keeps_file := λ _ _ _ _, eq_refl;
     batchCreate_keeps_file := λ _ _ _ _, eq_refl |}.

(** No tracker file yet. *)
Definition no_file : Disk := mkDisk 0 0 ∅.

(** A photo with another id and another checksum than [photo1]. *)
Definition photo3 : Photo :=
  mkPhoto "f3" "My Drive/Photos/c.jpg" "image/jpeg" (Some (PyStr "ddd444")).

(** A tracker file that holds the upload of [photo3]. *)
Definition file_with_photo3 : Disk :=
  mkDisk 0 0
    {[ "ddd444" := mkEntry (Some "f3") "photo-c.jpg" "My Drive/Photos/c.jpg"
                           "2024-03-01T18:00:00" ]}.

(** Two runs over [photo1] in a world whose first download raises, from no
    tracker file; the second run starts in the world the first one left. *)
Definition missed_run1
    : (string + list UploadResult) * Sys (disk 1 0) :=
  run_from_file (disk_file 1 0) None true [photo1] no_file.

Definition missed_run2
    : (string + list UploadResult) * Sys (disk 1 0) :=
  run_from_file (disk_file 1 0) None true [photo1] (sys_world missed_run1.2).

(** Two runs over [photo1; photo3] in a world whose first tracker write
    raises, from a file that holds [photo3]; the second run starts in the
    world the first one left. *)
Definition lost_run1
    : (string + list UploadResult) * Sys (disk 0 1) :=
  run_from_file (disk_file 0 1) None true [photo1; photo3] file_with_photo3.

Definition lost_run2
    : (string + list UploadResult) * Sys (disk 0 1) :=
  run_from_file (disk_file 0 1) None true [photo1; photo3]
                (sys_world lost_run1.2).

(** Two runs over [photo1; photo2] in a world where everything succeeds,
    from no tracker file; the second run starts in the world the first one
    left. *)
Definition kept_run1
    : (string + list UploadResult) * Sys (disk 0 0) :=
  run_from_file (disk_file 0 0) None true [photo1; photo2] no_file.

Definition kept_run2
    : (string + list UploadResult) * Sys (disk 0 0) :=
  run_from_file (disk_file 0 0) None true [photo1; photo2]
                (sys_world kept_run1.2).

End Persistence.

(* ===================================================================== *)
(** ** Further notions for the scanner                                   *)
(* ===================================================================== *)

Module Tree.
Import Drive.

(** The files (entries that are not folders) a scan working under
    [current_path] comes across in and below a folder, each with the path
    of the folder that lists it, in the order of the scan: the files of
    the folder itself first, then those of its subfolders, one subfolder
    after the other. *)
Section FilesBelow.

Variable files_below : string → DriveItem → list (string * DriveItem).
Variable current_path : string.

Fixpoint files_in_subfolders (items : list DriveItem)
    : list (string * DriveItem) :=
  match items with
  | [] => []
  | it :: rest =>
      if is_folder it then
        (files_below (full_path current_path it) it
         ++ files_in_subfolders rest)%list
      else files_in_subfolders rest
  end.

End FilesBelow.

Fixpoint files_below (current_path : string) (folder : DriveItem)
    : list (string * DriveItem) :=
  (map (λ it, (current_path, it))
       (filter (λ it, is_folder it = false) (item_children folder))
   ++ files_in_subfolders files_below current_path (item_children folder))%list.

(** The photo entries among [files_below], as [scan_folder] records them. *)
Definition photos_below (current_path : string) (folder : DriveItem)
    : list PhotoData :=
  map (λ pf : string * DriveItem, photo_data_of pf.1 pf.2)
      (filter (λ pf : string * DriveItem, is_photo (item_mimeType pf.2) = true)
              (files_below current_path folder)).

(** What scanning one resolved path alone adds to the two lists. *)
Definition photos_of_path (name_of : string → option string)
    (entry : string * option DriveItem) : list PhotoData :=
  match entry.2 with
  | Some folder => photos_below (scan_path name_of folder entry.1) folder
  | None => []
  end.

Definition empties_of_path (name_of : string → option string)
    (entry : string * option DriveItem) : list string :=
  match entry.2 with
  | Some folder =>
      map fst (filter (λ pf : string * DriveItem, is_leaf pf.2 = true)
                 (folders_below (scan_path name_of folder entry.1) folder))
  | None => []
  end.

(** [s] starts with [prefix]. *)
Definition starts_with (prefix s : string) : Prop :=
  ∃ suffix, s = prefix +:+ suffix.

End Tree.

(* ===================================================================== *)
(** ** Python string operations                                          *)
(* ===================================================================== *)

(** A character is a code point below 256, so a string is text of that
    range. *)
Module Text.

(** [str.isspace] on one character: tab to carriage return, the four
    separators 0x1C to 0x1F, the space, 0x85 and the no-break space. *)
Definition is_space (c : ascii) : bool :=
  let n := nat_of_ascii c in
  (Nat.leb 9 n && Nat.leb n 13) || (Nat.leb 28 n && Nat.leb n 32)
  || Nat.eqb n 133 || Nat.eqb n 160.

Definition is_char (c x : ascii) : bool := bool_decide (x = c).

(** Some character of the string satisfies [P]. *)
Fixpoint has_char (P : ascii → bool) (s : string) : bool :=
  match s with
  | EmptyString => false
  | String c rest => P c || has_char P rest
  end.

(** [str.lstrip]: drop the leading characters that satisfy [P]. *)
Fixpoint lstrip (P : ascii → bool) (s : string) : string :=
  match s with
  | EmptyString => EmptyString
  | String c rest => if P c then lstrip P rest else s
  end.

(** [str.rstrip]: drop the trailing characters that satisfy [P]. *)
Fixpoint rstrip (P : ascii → bool) (s : string) : string :=
  match s with
  | EmptyString => EmptyString
  | String c rest =>
      match rstrip P rest with
      | EmptyString => if P c then EmptyString else String c EmptyString
      | kept => String c kept
      end
  end.

(** [s.strip()] for [P := is_space], [s.strip('/')] for [P := is_char "/"]. *)
Definition strip (P : ascii → bool) (s : string) : string :=
  rstrip P (lstrip P s).

(** [s.split(c)] for a separator of one character: the pieces between the
    occurrences of [c], the empty ones included. *)
Fixpoint split_on (c : ascii) (s : string) : list string :=
  match s with
  | EmptyString => [EmptyString]
  | String x rest =>
      if bool_decide (x = c) then EmptyString :: split_on c rest
      else match split_on c rest with
           | piece :: pieces => String x piece :: pieces
           | [] => [String x EmptyString]
           end
  end.

(** The character ends a line of a text file: line feed or carriage
    return. *)
Definition ends_line (c : ascii) : bool :=
  bool_decide (c = "010"%char) || bool_decide (c = "013"%char).

(** [s.startswith(c)] for one character. *)
Definition starts_with_char (c : ascii) (s : string) : bool :=
  match s with
  | String x _ => bool_decide (x = c)
  | EmptyString => false
  end.

(** Truthiness of a string. *)
Definition nonempty (s : string) : bool :=
  match s with EmptyString => false | String _ _ => true end.

(** Iterating over a text file opened with the default [newline=None]:
    the lines of the content, where ["\n"], ["\r"] and ["\r\n"] all end a
    line and are handed over as ["\n"]. *)
Fixpoint readlines (content : string) : list string :=
  match content with
  | EmptyString => []
  | String c rest =>
      if bool_decide (c = "010"%char) then
        String "010"%char EmptyString :: readlines rest
      else if bool_decide (c = "013"%char) then
        String "010"%char EmptyString
        :: match rest with
           | String c' rest' =>
               if bool_decide (c' = "010"%char) then readlines rest'
               else readlines rest
           | EmptyString => []
           end
      else match readlines rest with
           | line :: lines => String c line :: lines
           | [] => [String c EmptyString]
           end
  end.

End Text.

(* ===================================================================== *)
(** ** drive_scanner.py: path resolution; main.py: the paths option      *)
(* ===================================================================== *)

Module Paths.
Import Text.

Section Resolve.

(** The answer to the query of [resolve_folder_path] for a folder named
    [name] directly in the folder [parent] (not trashed, page size 1): the
    id of the first folder returned, [None] when none is, or the message
    of the exception [execute()] raises. *)
Variable find_folder : string → string → string + option string.

(** The loop [for folder_name in parts] from the folder [current]. *)
Fixpoint navigate (current : string) (parts : list string)
    : string + option string :=
  match parts with
  | [] => inr (Some current)
  | folder_name :: rest =>
      if negb (nonempty folder_name) then navigate current rest
      else match find_folder current folder_name with
           | inl e => inl e
           | inr None => inr None
           | inr (Some folder_id) => navigate folder_id rest
           end
  end.

(** [resolve_folder_path]: the id found, [None] when a folder of the path
    is missing, or the exception of a query. *)
Definition resolve_folder_path (folder_path : string)
    : string + option string :=
  let parts := split_on "/" (strip (is_char "/") folder_path) in
  match parts with
  | [] => inr (Some "root")
  | first :: others =>
      if bool_decide (first = "My Drive") then navigate "root" others
      else navigate "root" parts
  end.

End Resolve.

(** What the path of [segments] looks up from the root: the segments in
    order, without a leading ["My Drive"]. *)
Definition without_alias (segments : list string) : list string :=
  match segments with
  | first :: others =>
      if bool_decide (first = "My Drive") then others else segments
  | [] => []
  end.

(** A path segment: not empty and without a [/]. *)
Definition is_segment (s : string) : Prop :=
  s ≠ "" ∧ has_char (is_char "/") s = false.

(** [main.py]: [[p.strip() for p in args.paths.split(',') if p.strip()]]. *)
Definition parse_paths (paths : string) : list string :=
  filter (λ p, nonempty p = true) (map (strip is_space) (split_on "," paths)).

End Paths.

(* ===================================================================== *)
(** ** The text files: photos.txt and upload_status.txt                  *)
(* ===================================================================== *)

Module Reports.
Import Text.

(** The line feed. *)
Definition nl : string := String "010"%char EmptyString.

(** What an f-string prints for a value that is a string or [None]. *)
Definition str_of_option (o : option string) : string :=
  match o with
  | Some s => s
  | None => "None"
  end.

Definition str_of_pyval (v : Photos.pyval) : string :=
  match v with
  | Photos.PyStr s => s
  | Photos.PyNone => "None"
  end.

(** *** [DriveScanner.write_results]: photos.txt *)

(** One line of photos.txt.  A record of the scanner always has the key
    [md5Checksum], with the value [None] for an item without checksum. *)
Definition photos_txt_line (photo : Drive.PhotoData) : string :=
  Drive.pd_id photo +:+ "|" +:+ Drive.pd_path photo +:+ "|"
  +:+ Drive.pd_mimeType photo +:+ "|"
  +:+ str_of_option (Drive.pd_md5Checksum photo) +:+ nl.

(** The content of photos.txt. *)
Definition photos_txt (photos_found : list Drive.PhotoData) : string :=
  ("# Google Drive Photos" +:+ nl)
  +:+ ("# Total: " +:+ pretty (length photos_found) +:+ " photos" +:+ nl)
  +:+ ("# Format: file_id|path|mime_type|md5_checksum" +:+ nl +:+ nl)
  +:+ String.concat "" (map photos_txt_line photos_found).

(** The content of empty_folders.txt. *)
Definition empty_folders_txt (empty_folders : list string) : string :=
  ("# Empty Google Drive Folders" +:+ nl)
  +:+ ("# Total: " +:+ pretty (length empty_folders) +:+ " empty folders"
       +:+ nl +:+ nl)
  +:+ String.concat "" (map (λ folder_path, folder_path +:+ nl) empty_folders).

(** *** [PhotosUploader.load_photos_list] *)

(** The body of [for line in f] in the text fallback: the photo read from
    the line, if any. *)
Definition parse_line (line : string) : option Photos.Photo :=
  let line := strip is_space line in
  if negb (nonempty line) || starts_with_char "#" line then None
  else
    match split_on "|" line with
    | file_id :: path :: mime_type :: more =>
        Some (Photos.mkPhoto file_id path mime_type
                match more with
                | md5 :: _ =>
                    if nonempty md5 then Some (Photos.PyStr md5) else None
                | [] => None
                end)
    | _ => None
    end.

(** The text fallback, on the content of photos.txt. *)
Definition load_photos_txt (content : string) : list Photos.Photo :=
  omap parse_line (readlines content).

(** [load_photos_list].  [photos_json] is the decoded content of
    photos_metadata.json when that file exists and decodes, [photos_txt] the
    content of photos.txt when that file exists; [not_found] is the message
    of the [FileNotFoundError]. *)
Definition load_photos_list (not_found : string)
    (photos_json : option (list Photos.Photo)) (photos_txt : option string)
    : string + list Photos.Photo :=
  match photos_json with
  | Some photos => inr photos
  | None =>
      match photos_txt with
      | None => inl not_found
      | Some content => inr (load_photos_txt content)
      end
  end.

(** The photo that the text fallback reads from the line of a scanner
    record. *)
Definition read_back (photo : Drive.PhotoData) : Photos.Photo :=
  Photos.mkPhoto (Drive.pd_id photo) (Drive.pd_path photo)
    (Drive.pd_mimeType photo)
    (if nonempty (str_of_option (Drive.pd_md5Checksum photo))
     then Some (Photos.PyStr (str_of_option (Drive.pd_md5Checksum photo)))
     else None).

(** A line break or the field separator. *)
Definition breaks_line (c : ascii) : bool :=
  bool_decide (c = "010"%char) || bool_decide (c = "013"%char)
  || bool_decide (c = "|"%char).

(** A scanner record whose line reads back field by field: no field holds
    a [|] or a line break, the id holds no whitespace and does not start
    with [#], and the checksum holds no whitespace. *)
Definition plain (photo : Drive.PhotoData) : Prop :=
  has_char is_space (Drive.pd_id photo) = false
  ∧ has_char (is_char "|") (Drive.pd_id photo) = false
  ∧ starts_with_char "#" (Drive.pd_id photo) = false
  ∧ has_char breaks_line (Drive.pd_path photo) = false
  ∧ has_char breaks_line (Drive.pd_mimeType photo) = false
  ∧ has_char is_space (str_of_option (Drive.pd_md5Checksum photo)) = false
  ∧ has_char (is_char "|") (str_of_option (Drive.pd_md5Checksum photo))
    = false.

(** *** [PhotosUploader.write_results]: upload_status.txt *)

Definition status_text (st : Photos.Status) : string :=
  match st with
  | Photos.SUCCESS => "SUCCESS"
  | Photos.SKIPPED_DUPLICATE => "SKIPPED_DUPLICATE"
  | Photos.FAILED => "FAILED"
  | Photos.ERROR => "ERROR"
  end.

(** [r.get('status') == text] for the text of a status. *)
Definition has_status (st : Photos.Status) (r : Photos.UploadResult) : bool :=
  match Photos.r_status r with
  | Some st' => bool_decide (status_text st' = status_text st)
  | None => false
  end.

(** The three counts of the header. *)
Definition success_count (results : list Photos.UploadResult) : nat :=
  length (filter (λ r, has_status Photos.SUCCESS r = true) results).

Definition skipped_count (results : list Photos.UploadResult) : nat :=
  length (filter (λ r, has_status Photos.SKIPPED_DUPLICATE r = true) results).

Definition fail_count (results : list Photos.UploadResult) : nat :=
  length (filter (λ r, has_status Photos.FAILED r || has_status Photos.ERROR r
                       = true) results).

(** The line of one result, or the [KeyError] of a result without
    [status], or without [success] where that key is read. *)
Definition report_line (r : Photos.UploadResult) : string + string :=
  match Photos.r_status r with
  | None => inl "'status'"
  | Some st =>
      let line extra :=
        status_text st +:+ "|" +:+ Photos.r_path r +:+ "|" +:+ extra +:+ nl in
      if has_status Photos.SKIPPED_DUPLICATE r then
        inr (line ("md5:" +:+ str_of_pyval (Photos.r_md5Checksum r)))
      else
        match Photos.r_success r with
        | None => inl "'success'"
        | Some true => inr (line (default "" (Photos.r_photos_id r)))
        | Some false =>
            inr (line (default "Unknown error" (Photos.r_error r)))
        end
  end.

(** The loop over the results: what is written, and the exception that
    ended the loop, if any. *)
Fixpoint report_lines (results : list Photos.UploadResult)
    : string * option string :=
  match results with
  | [] => (EmptyString, None)
  | r :: rest =>
      match report_line r with
      | inl e => (EmptyString, Some e)
      | inr line =>
          let '(written, exn) := report_lines rest in
          (line +:+ written, exn)
      end
  end.

(** The header of upload_status.txt, written at the time [generated]. *)
Definition report_header (generated : Photos.datetime)
    (self : Photos.PhotosUploader) : string :=
  ("# Google Photos Upload Status" +:+ nl)
  +:+ ("# Generated: " +:+ Photos.isoformat generated +:+ nl)
  +:+ ("# Album: " +:+ Photos.album_name self +:+ nl)
  +:+ ("# Album ID: " +:+ str_of_option (Photos.album_id self) +:+ nl)
  +:+ ("# Total: " +:+ pretty (length (Photos.upload_results self))
       +:+ " files" +:+ nl)
  +:+ ("# Uploaded: " +:+ pretty (success_count (Photos.upload_results self))
       +:+ nl)
  +:+ ("# Skipped (duplicates): "
       +:+ pretty (skipped_count (Photos.upload_results self)) +:+ nl)
  +:+ ("# Failed: " +:+ pretty (fail_count (Photos.upload_results self))
       +:+ nl)
  +:+ ("# Format: status|path|photos_id_or_error" +:+ nl +:+ nl).

(** [PhotosUploader.write_results]: the content written to
    upload_status.txt and the exception that interrupted it, if any. *)
Definition write_results (generated : Photos.datetime)
    (self : Photos.PhotosUploader) : string * option string :=
  let '(written, exn) := report_lines (Photos.upload_results self) in
  (report_header generated self +:+ written, exn).

End Reports.

(* ===================================================================== *)
(** ** drive_scanner.py: the paginated listing                           *)
(* ===================================================================== *)

Module Listing.

Section Pages.

(** The entries of a listing. *)
Variable Item : Type.

(** The answer of [files().list(q=..., pageToken=page_token)] for a
    folder: the [files] of the page (none when the key is missing) with
    its [nextPageToken], or the message of the exception [execute()]
    raises. *)
Variable list_page :
  string → option string → string + (list Item * option string).

(** [list_files_in_folder], run to its end by a consumer: the items
    yielded, and the exception that ended the listing, if any.  The loop
    [while True] is given [fuel] pages; the answer is [None] when they do
    not suffice. *)
Fixpoint list_files_in_folder (fuel : nat) (folder_id : string)
    (page_token : option string) : option (list Item * option string) :=
  match fuel with
  | 0 => None
  | S fuel =>
      match list_page folder_id page_token with
      | inl e => Some ([], Some e)
      | inr (files, next_page_token) =>
          if Photos.truthy_opt next_page_token then
            match list_files_in_folder fuel folder_id next_page_token with
            | Some (more, exn) => Some ((files ++ more)%list, exn)
            | None => None
            end
          else Some (files, None)
      end
  end.

(** The pages the service hands out for a folder from [page_token] on:
    each is the answer for the token of the page before, the last one
    carries no token (none, or the empty string), or else the request
    after the last page raises [exn]. *)
Fixpoint served (folder_id : string) (page_token : option string)
    (pages : list (list Item * option string)) (exn : option string) : Prop :=
  match pages with
  | [] =>
      match exn with
      | Some e => list_page folder_id page_token = inl e
      | None => False
      end
  | (files, next_page_token) :: rest =>
      list_page folder_id page_token = inr (files, next_page_token)
      ∧ if Photos.truthy_opt next_page_token
        then served folder_id next_page_token rest exn
        else rest = [] ∧ exn = None
  end.

End Pages.

(** A folder served in two pages. *)
Definition two_pages (folder_id : string) (page_token : option string)
    : string + (list nat * option string) :=
  match page_token with
  | None => inr ([1; 2], Some "t1")
  | Some _ => inr ([3], None)
  end.

End Listing.

(* ===================================================================== *)
(** ** Inputs for the paths and the text files                           *)
(* ===================================================================== *)

Module Samples.
Import Text Paths Reports.

(** A Drive whose root holds the folder [Photos], which holds [2024]. *)
Definition find_sample (parent name : string) : string + option string :=
  if bool_decide (parent = "root") && bool_decide (name = "Photos")
  then inr (Some "idPhotos")
  else if bool_decide (parent = "idPhotos") && bool_decide (name = "2024")
  then inr (Some "id2024")
  else inr None.

(** A record with a checksum and one without, as the scanner builds them. *)
Definition record_with_md5 : Drive.PhotoData :=
  Drive.mkPhotoData "id1" "a.jpg" "My Drive/Photos/a.jpg" "image/jpeg"
    None None None (Some "abc123") None.

Definition record_without_md5 : Drive.PhotoData :=
  Drive.mkPhotoData "id2" "b c.png" "My Drive/Photos/b c.png" "image/png"
    None None None None None.

End Samples.

(* ===================================================================== *)
(** ** Properties of the scanner                                         *)
(* ===================================================================== *)

Module ScanProps.
Import Drive Fixtures.

(** Induction on a snapshot, with the hypothesis for every listed entry. *)
Lemma DriveItem_nested_ind (P : DriveItem → Prop) :
  (∀ it, Forall P (item_children it) → P it) → ∀ it, P it.
Proof.
  intros step. fix IH 1. intros it. apply step.
  destruct it as [? ? ? ? ? ? ? ? ch]; simpl.
  revert ch. fix IHl 1. intros [|c ch].
  - constructor.
  - constructor; [apply IH | apply IHl].
Qed.

Section Listing.

Variable current_path : string.

Lemma list_step_counts acc it :
  file_count (list_step current_path acc it)
    = file_count acc + (if is_folder it then 0 else 1)
  ∧ subfolder_count (list_step current_path acc it)
    = subfolder_count acc + (if is_folder it then 1 else 0)
  ∧ empty_folders (acc_scanner (list_step current_path acc it))
    = empty_folders (acc_scanner acc)
  ∧ subfolders (list_step current_path acc it)
    = (subfolders acc
       ++ (if is_folder it then [(item_id it, full_path current_path it)]
           else []))%list.
Proof.
  unfold list_step. destruct (is_folder it); simpl.
  - repeat split; try lia.
  - repeat split; try lia.
    + by destruct (is_photo _).
    + by rewrite app_nil_r.
Qed.

Lemma fold_list_step_counts items acc :
  let acc' := fold_left (list_step current_path) items acc in
  file_count acc'
    = file_count acc + length (filter (λ it, is_folder it = false) items)
  ∧ subfolder_count acc'
    = subfolder_count acc + length (filter (λ it, is_folder it = true) items)
  ∧ empty_folders (acc_scanner acc') = empty_folders (acc_scanner acc)
  ∧ subfolders acc'
    = (subfolders acc
       ++ map (λ it, (item_id it, full_path current_path it))
              (filter (λ it, is_folder it = true) items))%list.
Proof.
  revert acc. induction items as [|it items IH]; intros acc; simpl.
  - rewrite app_nil_r. repeat split; lia.
  - destruct (IH (list_step current_path acc it)) as (Hf & Hd & He & Hs).
    destruct (list_step_counts acc it) as (Hf1 & Hd1 & He1 & Hs1).
    rewrite Hf, Hd, He, Hs, Hf1, Hd1, He1, Hs1.
    rewrite !filter_cons.
    destruct (is_folder it) eqn:Hit.
    + rewrite decide_False by done. rewrite decide_True by done.
      simpl. rewrite <- app_assoc. simpl. repeat split; lia.
    + rewrite decide_True by done. rewrite decide_False by done.
      simpl. rewrite app_nil_r. repeat split; lia.
Qed.

(** The [subfolders] list built by the first loop is the list of folder
    entries of the listing, in order, each with its path: the second loop
    of the model visits the same folders under the same paths. *)
Lemma subfolders_of_listing items sc :
  subfolders (list_loop current_path items sc)
  = map (λ it, (item_id it, full_path current_path it))
        (filter (λ it, is_folder it = true) items).
Proof.
  unfold list_loop.
  by destruct (fold_list_step_counts items
                 (mkAcc 0 0 [] sc)) as (_ & _ & _ & ->).
Qed.

Lemma list_loop_counts items sc :
  file_count (list_loop current_path items sc)
    = length (filter (λ it, is_folder it = false) items)
  ∧ subfolder_count (list_loop current_path items sc)
    = length (filter (λ it, is_folder it = true) items)
  ∧ empty_folders (acc_scanner (list_loop current_path items sc))
    = empty_folders sc.
Proof.
  unfold list_loop.
  destruct (fold_list_step_counts items (mkAcc 0 0 [] sc))
    as (Hf & Hd & He & _).
  simpl in *. by rewrite Hf, Hd, He.
Qed.

End Listing.

Lemma scan_folder_fst (name_of : string → option string)
    (folder : DriveItem) (current_path : string) (sc : DriveScanner) :
  (scan_folder name_of folder current_path sc).1
  = (length (filter (λ it, is_folder it = false) (item_children folder)),
     length (filter (λ it, is_folder it = true) (item_children folder))).
Proof.
  destruct folder as [fid nm mime sz ct mt md5 meta ch]. simpl.
  destruct (list_loop_counts
              (if bool_decide (current_path = "")
               then get_folder_name name_of fid else current_path) ch sc)
    as (-> & -> & _).
  reflexivity.
Qed.

(** The counts returned for two folders agree as soon as their listings
    have the same MIME types, whatever the listed folders contain. *)
Lemma scan_folder_counts_ignore_descendants
    (name_of : string → option string) (f1 f2 : DriveItem)
    (p1 p2 : string) (sc1 sc2 : DriveScanner) :
  map item_mimeType (item_children f1) = map item_mimeType (item_children f2) →
  (scan_folder name_of f1 p1 sc1).1 = (scan_folder name_of f2 p2 sc2).1.
Proof.
  intros Hm. rewrite !scan_folder_fst.
  assert (Hgen : ∀ (b : bool) l1 l2,
    map item_mimeType l1 = map item_mimeType l2 →
    length (filter (λ it, is_folder it = b) l1)
    = length (filter (λ it, is_folder it = b) l2)).
  { intros b l1. induction l1 as [|x l1 IH]; intros [|y l2] Hl;
      simpl in Hl; try discriminate; [done|].
    injection Hl as Hxy Hl. rewrite !filter_cons.
    assert (is_folder x = is_folder y) as Hf by (unfold is_folder; by rewrite Hxy).
    rewrite Hf. destruct (decide (is_folder y = b)); simpl; auto. }
  by rewrite (Hgen false _ _ Hm), (Hgen true _ _ Hm).
Qed.

(** The returned pair is (0, 0) exactly for a folder with an empty listing. *)
Lemma counts_zero_iff_leaf (folder : DriveItem) :
  Nat.eqb (length (filter (λ it, is_folder it = false) (item_children folder))) 0
  && Nat.eqb (length (filter (λ it, is_folder it = true) (item_children folder))) 0
  = is_leaf folder.
Proof.
  unfold is_leaf. destruct (item_children folder) as [|it rest]; [done|].
  rewrite !filter_cons. destruct (is_folder it).
  - rewrite decide_False by done. rewrite decide_True by done.
    simpl. apply andb_false_r.
  - rewrite decide_True by done. done.
Qed.

Lemma full_path_nonempty (current_path : string) (it : DriveItem) :
  bool_decide (full_path current_path it = "") = false.
Proof.
  apply bool_decide_eq_false. unfold full_path.
  destruct current_path; discriminate.
Qed.

Lemma scan_path_full_path name_of (current_path : string) (it : DriveItem) :
  scan_path name_of it (full_path current_path it) = full_path current_path it.
Proof. unfold scan_path. by rewrite full_path_nonempty. Qed.

(** What a scan adds to [empty_folders]: the paths of the visited folders
    below the scanned one whose own listing is empty, and only those. *)
Lemma scan_folder_empty_folders (name_of : string → option string)
    (folder : DriveItem) :
  ∀ (current_path : string) (sc : DriveScanner),
    empty_folders (scan_folder name_of folder current_path sc).2
    = (empty_folders sc
       ++ map fst (filter (λ pf, is_leaf pf.2 = true)
                     (folders_below (scan_path name_of folder current_path)
                        folder)))%list.
Proof.
  induction folder as [folder IH] using DriveItem_nested_ind.
  intros current_path sc.
  destruct folder as [fid nm mime sz ct mt md5 meta ch].
  unfold scan_path. simpl in *.
  set (cp := if bool_decide (current_path = "")
             then get_folder_name name_of fid else current_path).
  destruct (list_loop_counts cp ch sc) as (_ & _ & He).
  rewrite <- He. generalize (acc_scanner (list_loop cp ch sc)).
  clear He. induction IH as [|it rest Hit _ IHrest]; intros sc0; simpl.
  - by rewrite app_nil_r.
  - destruct (is_folder it) eqn:Hfold; [|apply IHrest].
    pose proof (scan_folder_fst name_of it (full_path cp it) sc0) as Hc.
    specialize (Hit (full_path cp it) sc0).
    rewrite scan_path_full_path in Hit.
    destruct (scan_folder name_of it (full_path cp it) sc0)
      as [[sub_files sub_folders] sc'].
    simpl in Hc, Hit. injection Hc as -> ->.
    rewrite counts_zero_iff_leaf, IHrest.
    rewrite filter_app, filter_cons, map_app. simpl.
    destruct (is_leaf it) eqn:Hleaf; simpl.
    + rewrite Hit. by rewrite <- !app_assoc.
    + rewrite Hit. by rewrite <- !app_assoc.
Qed.

(** C8. For every folder, every starting path and every scanner state,
    [scan_folder] returns the number of direct children that are not
    folders (photos and other files alike) and the number of direct
    children that are folders: the pair is read off the folder's own
    listing and nothing below it. *)
Theorem scan_folder_returns_direct_counts
    (name_of : string → option string) (folder : DriveItem)
    (current_path : string) (sc : DriveScanner) :
  (scan_folder name_of folder current_path sc).1
  = (length (direct_files folder), length (direct_subfolders folder)).
Proof. apply scan_folder_fst. Qed.

(** C1, on the tree [root/{A/, B/photo1.jpg, C/D/}]: the folder [C] is
    listed by the scan root, has no direct file and is recursively empty,
    yet the scan records only [A] and [C/D]; the path of [C] is not
    recorded. *)
Theorem nested_empty_folder_not_recorded :
  folder_C ∈ item_children tree_A_B_CD
  ∧ direct_files folder_C = []
  ∧ recursively_empty folder_C = true
  ∧ (scan no_names tree_A_B_CD no_scanner).2 = ["My Drive/A"; "My Drive/C/D"]
  ∧ "My Drive/C" ∉ (scan no_names tree_A_B_CD no_scanner).2.
Proof.
  assert (Hscan : (scan no_names tree_A_B_CD no_scanner).2
                  = ["My Drive/A"; "My Drive/C/D"]) by (vm_compute; reflexivity).
  split; [|split; [|split; [|split]]].
  - unfold tree_A_B_CD, folder_C, folder_item. simpl. set_solver.
  - vm_compute; reflexivity.
  - vm_compute; reflexivity.
  - exact Hscan.
  - rewrite Hscan. intros Hin.
    apply elem_of_cons in Hin as [Hin|Hin]; [discriminate|].
    apply elem_of_cons in Hin as [Hin|Hin]; [discriminate|].
    by apply elem_of_nil in Hin.
Qed.

Lemma string_append_cons (x : ascii) (a b : string) :
  String x a +:+ b = String x (a +:+ b).
Proof. reflexivity. Qed.

Lemma string_append_assoc (a b c : string) :
  (a +:+ b) +:+ c = a +:+ b +:+ c.
Proof.
  induction a as [|x a IH]; [reflexivity|].
  by rewrite !string_append_cons, IH.
Qed.

Lemma append_slash_longer (current_path suffix : string) :
  current_path ≠ current_path +:+ "/" +:+ suffix.
Proof.
  induction current_path as [|c p IH]; [discriminate|].
  rewrite string_append_cons. intros [= H]. by apply IH.
Qed.

(** Every folder visited below the scanned one is visited under a path
    that extends the path of the scan with a [/]. *)
Lemma folders_below_paths (folder : DriveItem) :
  ∀ (current_path p : string) (it : DriveItem),
    (p, it) ∈ folders_below current_path folder →
    ∃ suffix, p = current_path +:+ "/" +:+ suffix.
Proof.
  induction folder as [folder IH] using DriveItem_nested_ind.
  intros current_path p it.
  destruct folder as [fid nm mime sz ct mt md5 meta ch]. simpl in *.
  induction IH as [|c rest Hc _ IHrest]; simpl.
  - intros Hin. by apply elem_of_nil in Hin.
  - destruct (is_folder c); [|exact IHrest].
    rewrite elem_of_app, elem_of_cons.
    intros [Hin | [[= -> ->] | Hin]].
    + destruct (Hc _ _ _ Hin) as (suffix & ->).
      exists (item_name c +:+ "/" +:+ suffix). unfold full_path.
      by rewrite !string_append_assoc.
    + by exists (item_name c).
    + by apply IHrest.
Qed.

(** The scan root is never recorded by its own scan: the recorded paths
    are those of folders strictly below it, and the path the scan works
    under is not one of them. *)
Lemma scan_root_not_recorded (name_of : string → option string)
    (root : DriveItem) (current_path : string) :
  scan_path name_of root current_path
  ∉ empty_folders (scan_folder name_of root current_path no_scanner).2.
Proof.
  rewrite scan_folder_empty_folders. simpl.
  intros Hin. apply list_elem_of_fmap in Hin as ([p it] & Hp & Hin).
  apply list_elem_of_filter in Hin as [_ Hin]. simpl in Hp. subst p.
  destruct (folders_below_paths _ _ _ _ Hin) as (suffix & Heq).
  by apply append_slash_longer in Heq.
Qed.

End ScanProps.

(* ===================================================================== *)
(** ** Properties of the uploader                                        *)
(* ===================================================================== *)

Module UploadProps.
Import Photos Fixtures Persistence.

(** *** The duplicate test *)

Lemma truthy_PyStr (v : pyval) :
  truthy v = true ↔ ∃ s, v = PyStr s ∧ s ≠ "".
Proof.
  destruct v as [|s]; simpl.
  - split; [done | intros (s & ? & _); done].
  - rewrite negb_true_iff, bool_decide_eq_false.
    split; [intros; by exists s | intros (s' & [= ->] & ?); done].
Qed.

Lemma file_id_scan_true (m : gmap string TrackerEntry) (file_id : string) :
  existsb (λ kv : string * TrackerEntry,
             bool_decide (te_file_id kv.2 = Some file_id)) (map_to_list m) = true
  ↔ ∃ k e, m !! k = Some e ∧ te_file_id e = Some file_id.
Proof.
  rewrite existsb_exists. split.
  - intros ([k e] & Hin & Hb). exists k, e.
    apply list_elem_of_In, elem_of_map_to_list in Hin.
    by apply bool_decide_eq_true in Hb.
  - intros (k & e & Hl & Hf). exists (k, e). split.
    + by apply list_elem_of_In, elem_of_map_to_list.
    + by apply bool_decide_eq_true.
Qed.

Lemma is_duplicate_true (self : PhotosUploader) (md5 : pyval) (fid : string) :
  is_duplicate self md5 fid = true
  ↔ skip_duplicates self = true
    ∧ ((∃ s, md5 = PyStr s ∧ s ≠ "" ∧ is_Some (uploaded_photos self !! s))
       ∨ (∃ k e, uploaded_photos self !! k = Some e
                 ∧ te_file_id e = Some fid)).
Proof.
  unfold is_duplicate. destruct (skip_duplicates self); simpl.
  2: { split; [done | intros [? _]; done]. }
  destruct (truthy md5 && _) eqn:Hkey.
  - split; [intros _ | done]. split; [done|]. left.
    apply andb_true_iff in Hkey as [Ht Hin].
    apply truthy_PyStr in Ht as (s & -> & Hs).
    exists s. by apply bool_decide_eq_true in Hin.
  - rewrite file_id_scan_true. split.
    + intros H. split; [done | by right].
    + intros [_ [(s & -> & Hs & Hin) | H]]; [|done].
      exfalso. apply andb_false_iff in Hkey as [Ht | Hn].
      * simpl in Ht. apply negb_false_iff, bool_decide_eq_true in Ht. done.
      * by apply bool_decide_eq_false in Hn.
Qed.

Lemma is_duplicate_mono (self self' : PhotosUploader) (md5 : pyval)
    (fid : string) :
  skip_duplicates self' = skip_duplicates self →
  uploaded_photos self ⊆ uploaded_photos self' →
  is_duplicate self md5 fid = true →
  is_duplicate self' md5 fid = true.
Proof.
  intros Hskip Hsub. rewrite !is_duplicate_true, Hskip.
  intros [Hs [(s & -> & Hne & [e He]) | (k & e & He & Hf)]]; split; try done.
  - left. exists s. repeat split; try done. exists e.
    by eapply lookup_weaken.
  - right. exists k, e. split; [by eapply lookup_weaken | done].
Qed.

(** With duplicate-skipping on, a checksum that is not a duplicate is not
    a key of the tracker. *)
Lemma not_duplicate_fresh_key (self : PhotosUploader) (key fid : string) :
  skip_duplicates self = true → key ≠ "" →
  is_duplicate self (PyStr key) fid = false →
  uploaded_photos self !! key = None.
Proof.
  intros Hskip Hne Hdup.
  destruct (uploaded_photos self !! key) as [e|] eqn:He; [|done].
  assert (is_duplicate self (PyStr key) fid = true) as Ht; [|congruence].
  apply is_duplicate_true. split; [done|]. left. exists key. eauto.
Qed.

(** *** One photo *)

Ltac unfold_upload :=
  unfold upload_one, try_except_append, try_block, download_from_drive,
    upload_to_photos, record_upload, _save_uploaded_tracker, append_result,
    response_json, call, now, get_self, modify_self,
    mbind, M_bind, bind, mret, M_ret, ret, raise in *.

Ltac key_facts :=
  repeat match goal with
  | H : negb (bool_decide _) = true |- _ =>
      apply negb_true_iff, bool_decide_eq_false in H
  | H : negb (bool_decide _) = false |- _ =>
      apply negb_false_iff, bool_decide_eq_true in H
  end.

(** Whatever the world answers, one iteration of the loop ends normally
    and appends one result.  The lemma collects what the iteration does to
    [self] and which calls it makes. *)
Lemma upload_one_spec {B : Backend} (photo : Photo) (s : Sys B) :
  ∃ r s' evs, upload_one photo s = (inr tt, s')
    ∧ upload_results (sys_self s') = (upload_results (sys_self s) ++ [r])%list
    ∧ album_name (sys_self s') = album_name (sys_self s)
    ∧ album_id (sys_self s') = album_id (sys_self s)
    ∧ skip_duplicates (sys_self s') = skip_duplicates (sys_self s)
    ∧ result_of photo r ∧ result_consistent r
    ∧ sys_log s' = (sys_log s ++ evs)%list
    ∧ Forall (λ e, is_create_album e = false) evs
    ∧ (if is_duplicate (sys_self s) (photo_md5 photo) (id photo)
       then evs = [] ∧ r_success r = Some true
            ∧ uploaded_photos (sys_self s') = uploaded_photos (sys_self s)
       else ∃ rest, evs = EvDownload (id photo) :: rest)
    ∧ (r_status r = Some SKIPPED_DUPLICATE
       ↔ is_duplicate (sys_self s) (photo_md5 photo) (id photo) = true)
    ∧ (uploaded_photos (sys_self s') = uploaded_photos (sys_self s)
       ∨ ∃ key e, photo_md5 photo = PyStr key ∧ key ≠ ""
           ∧ is_duplicate (sys_self s) (photo_md5 photo) (id photo) = false
           ∧ te_file_id e = Some (id photo)
           ∧ uploaded_photos (sys_self s')
             = <[key := e]> (uploaded_photos (sys_self s)))
    ∧ (r_status r = Some SUCCESS →
       ∀ key, photo_md5 photo = PyStr key → key ≠ "" →
              is_Some (uploaded_photos (sys_self s') !! key)).
Proof.
  destruct s as [w self log].
  unfold_upload. simpl.
  repeat case_match; simplify_eq/=.
  all: do 3 eexists; split; [reflexivity|]; simpl.
  all: rewrite <- ?app_assoc; simpl.
  all: split; [reflexivity|].
  all: do 3 (split; [reflexivity|]).
  all: split; [done|].
  all: split; [eexists _, _; split; [reflexivity|split; [reflexivity|]];
         split; [intros; auto; discriminate | intros [|]; congruence]|].
  all: split; [first [reflexivity | symmetry; apply app_nil_r]|].
  all: split; [repeat constructor|].
  all: split; [first [by repeat split | by eexists]|].
  all: split; [simpl; split; intros; first [done|discriminate]|].
  all: key_facts.
  all: split; [first [by left | right; eexists _, _; repeat split; eauto]|].
  all: intros Hs key Hk Hne; simpl in Hs; try discriminate; simplify_eq/=.
  all: try by rewrite lookup_insert_eq.
Qed.

(** With duplicate-skipping on, one iteration only adds to the tracker. *)
Lemma upload_one_tracker_grows {B : Backend} (photo : Photo) (s s' : Sys B) :
  skip_duplicates (sys_self s) = true →
  upload_one photo s = (inr tt, s') →
  uploaded_photos (sys_self s) ⊆ uploaded_photos (sys_self s').
Proof.
  intros Hskip Hrun.
  destruct (upload_one_spec photo s)
    as (r & s1 & evs & Hrun1 & _ & _ & _ & _ & _ & _ & _ & _ & _ & _ & Htr & _).
  rewrite Hrun in Hrun1. injection Hrun1 as <-.
  destruct Htr as [-> | (key & e & Hmd5 & Hne & Hdup & _ & ->)]; [done|].
  apply insert_subseteq. rewrite Hmd5 in Hdup.
  by eapply not_duplicate_fresh_key.
Qed.

(** *** The loop *)

Lemma upload_loop_app {B : Backend} (pre post : list Photo) (s : Sys B) :
  upload_loop (pre ++ post) s = (upload_loop pre;; upload_loop post) s.
Proof.
  revert s. induction pre as [|photo pre IH]; intros s; simpl.
  - reflexivity.
  - unfold mbind, M_bind, bind in *.
    destruct (upload_one photo s) as [[e|[]] s1]; [reflexivity|].
    apply IH.
Qed.

(** The loop never raises.  It appends one result per photo, in order, it
    makes no album request, and with duplicate-skipping on it only adds to
    the tracker; a photo that is a duplicate when the loop starts is
    skipped, and a photo with a checksum that was uploaded or skipped is a
    duplicate when the loop ends. *)
Lemma upload_loop_spec {B : Backend} (photos : list Photo) :
  ∀ s : Sys B,
  ∃ rs s' evs, upload_loop photos s = (inr tt, s')
    ∧ upload_results (sys_self s') = (upload_results (sys_self s) ++ rs)%list
    ∧ album_name (sys_self s') = album_name (sys_self s)
    ∧ album_id (sys_self s') = album_id (sys_self s)
    ∧ skip_duplicates (sys_self s') = skip_duplicates (sys_self s)
    ∧ Forall2 (λ photo r, result_of photo r ∧ result_consistent r) photos rs
    ∧ sys_log s' = (sys_log s ++ evs)%list
    ∧ Forall (λ e, is_create_album e = false) evs
    ∧ (skip_duplicates (sys_self s) = true →
       uploaded_photos (sys_self s) ⊆ uploaded_photos (sys_self s')
       ∧ Forall2 (λ photo r,
                    is_duplicate (sys_self s) (photo_md5 photo) (id photo) = true →
                    r_status r = Some SKIPPED_DUPLICATE) photos rs
       ∧ Forall2 (λ photo r,
                    truthy (photo_md5 photo) = true →
                    r_status r = Some SUCCESS
                    ∨ r_status r = Some SKIPPED_DUPLICATE →
                    is_duplicate (sys_self s') (photo_md5 photo) (id photo)
                    = true) photos rs).
Proof.
  induction photos as [|photo photos IH]; intros s.
  - exists [], s, []. simpl. rewrite !app_nil_r.
    repeat split; try done; constructor.
  - destruct (upload_one_spec photo s)
      as (r & s1 & evs1 & Hrun1 & Hres1 & Han1 & Hai1 & Hsk1 & Hof & Hcons
          & Hlog1 & Hev1 & Hdupcase & Hskipped & Htr & Hsucc).
    destruct (IH s1)
      as (rs & s' & evs & Hrun & Hres & Han & Hai & Hsk & Hall & Hlog & Hev
          & Hskip).
    exists (r :: rs), s', (evs1 ++ evs)%list.
    split. { simpl. unfold mbind, M_bind, bind. by rewrite Hrun1. }
    split. { by rewrite Hres, Hres1, <- app_assoc. }
    split; [congruence|]. split; [congruence|]. split; [congruence|].
    split. { by constructor. }
    split. { by rewrite Hlog, Hlog1, <- app_assoc. }
    split. { by apply Forall_app. }
    intros Hon.
    assert (skip_duplicates (sys_self s1) = true) as Hon1 by congruence.
    destruct (Hskip Hon1) as (Hsub & Hpre & Hpost).
    pose proof (upload_one_tracker_grows photo s s1 Hon Hrun1) as Hsub1.
    split; [by etrans|]. split.
    + constructor; [by intros ?; apply Hskipped|].
      eapply Forall2_impl; [exact Hpre|]. intros p r0 Himp Hd.
      apply Himp. by eapply is_duplicate_mono.
    + constructor; [|exact Hpost].
      intros Htruthy Hst.
      assert (is_duplicate (sys_self s1) (photo_md5 photo) (id photo) = true)
        as Hd1.
      { destruct Hst as [Hst | Hst].
        - apply truthy_PyStr in Htruthy as (key & Hkey & Hne).
          apply is_duplicate_true. split; [done|]. left. exists key.
          split; [done|]. split; [done|]. by apply Hsucc.
        - apply Hskipped in Hst. by eapply is_duplicate_mono. }
      eapply is_duplicate_mono; [| exact Hsub | exact Hd1]. congruence.
Qed.

(** *** Album creation and the whole of [upload_all] *)

(** The text of the exception [create_album] raises on a reply that is not
    HTTP 200. *)
Lemma create_album_spec {B : Backend} (s : Sys B) :
  ∃ res s1, create_album s = (res, s1)
    ∧ sys_log s1 = (sys_log s ++ [EvCreateAlbum (album_name (sys_self s))])%list
    ∧ upload_results (sys_self s1) = upload_results (sys_self s)
    ∧ album_name (sys_self s1) = album_name (sys_self s)
    ∧ skip_duplicates (sys_self s1) = skip_duplicates (sys_self s)
    ∧ uploaded_photos (sys_self s1) = uploaded_photos (sys_self s)
    ∧ (∀ response w',
         post_albums B (album_name (sys_self s)) (sys_world s)
         = (inr response, w') →
         status_code response ≠ 200 →
         res = inl ("Failed to create album: "
                    +:+ pretty (status_code response)
                    +:+ " - " +:+ text response)).
Proof.
  destruct s as [w self log].
  unfold create_album, response_json, call, get_self, modify_self,
    mbind, M_bind, bind, ret, raise. simpl.
  destruct (post_albums B (album_name self) w) as [[e|response] w1] eqn:Hpost.
  - do 2 eexists. split; [reflexivity|]. simpl. repeat split; try done.
  - destruct (negb (status_code response =? 200)%nat) eqn:Hcode.
    + do 2 eexists. split; [reflexivity|]. simpl. repeat split; try done.
      intros response' w' [= <- <-] _. reflexivity.
    + apply negb_false_iff, Nat.eqb_eq in Hcode.
      destruct (json response) as [e|a]; simpl.
      all: do 2 eexists; (split; [reflexivity|]); simpl.
      all: repeat split; try done.
      all: intros response' w' [= <- <-] Hne; done.
Qed.

(** [upload_all] raises exactly when [create_album] does, and before it
    touches [upload_results]; otherwise it returns the results of the loop
    run after the album call. *)
Lemma upload_all_spec {B : Backend} (photos : list Photo) (s : Sys B) :
  match create_album s with
  | (inl e, s1) => upload_all photos s = (inl e, s1)
  | (inr a, s1) =>
      ∃ results s' evs,
        upload_all photos s = (inr results, s')
        ∧ upload_loop photos
            (mkSys (sys_world s1) (set_upload_results [] (sys_self s1))
                   (sys_log s1)) = (inr tt, s')
        ∧ upload_results (sys_self s') = results
        ∧ skip_duplicates (sys_self s') = skip_duplicates (sys_self s)
        ∧ Forall2 (λ photo r, result_of photo r ∧ result_consistent r)
                  photos results
        ∧ sys_log s'
          = (sys_log s ++ EvCreateAlbum (album_name (sys_self s)) :: evs)%list
        ∧ Forall (λ e, is_create_album e = false) evs
        ∧ (skip_duplicates (sys_self s) = true →
           uploaded_photos (sys_self s) ⊆ uploaded_photos (sys_self s')
           ∧ Forall2 (λ photo r,
                        is_duplicate (sys_self s) (photo_md5 photo) (id photo)
                        = true →
                        r_status r = Some SKIPPED_DUPLICATE) photos results
           ∧ Forall2 (λ photo r,
                        truthy (photo_md5 photo) = true →
                        r_status r = Some SUCCESS
                        ∨ r_status r = Some SKIPPED_DUPLICATE →
                        is_duplicate (sys_self s') (photo_md5 photo) (id photo)
                        = true) photos results)
  end.
Proof.
  destruct (create_album_spec s)
    as (res & s1 & Hca & Hlog1 & Hres1 & Han1 & Hsk1 & Hup1 & _).
  rewrite Hca. unfold upload_all, mbind, M_bind, bind. rewrite Hca.
  destruct res as [e|a]; [reflexivity|].
  unfold modify_self, get_self, ret. simpl.
  set (s2 := mkSys (sys_world s1) (set_upload_results [] (sys_self s1))
                   (sys_log s1)).
  destruct (upload_loop_spec photos s2)
    as (rs & s' & evs & Hrun & Hres & Han & Hai & Hsk & Hall & Hlog & Hev
        & Hskip).
  rewrite Hrun. simpl in *.
  exists rs, s', evs.
  split; [by rewrite Hres|]. split; [done|]. split; [done|].
  split; [congruence|]. split; [done|].
  split. { by rewrite Hlog, Hlog1, <- app_assoc. }
  split; [done|].
  intros Hon. rewrite Hsk1, Hup1 in Hskip.
  destruct (Hskip Hon) as (Hsub & Hpre & Hpost).
  split; [done|]. split; [|done].
  eapply Forall2_impl; [exact Hpre|]. intros p r Himp Hd. apply Himp.
  eapply is_duplicate_mono; [| | exact Hd]; simpl; [done | by rewrite Hup1].
Qed.

(** A run over [done ++ rest] goes through the state [upload_all_until
    done] ends in, and goes on from there with the loop over [rest]. *)
Lemma upload_all_through_prefix {B : Backend} (done rest : list Photo)
    (s s_mid : Sys B) :
  upload_all_until done s = (inr tt, s_mid) →
  upload_all (done ++ rest) s
  = (upload_loop rest;; self ← get_self; ret (upload_results self)) s_mid.
Proof.
  unfold upload_all_until, upload_all, mbind, M_bind, bind.
  destruct (create_album s) as [[e|a] s1]; [discriminate|].
  destruct (modify_self (set_upload_results []) s1) as [[e|[]] s2];
    [discriminate|].
  rewrite upload_loop_app. unfold mbind, M_bind, bind.
  intros ->. reflexivity.
Qed.

Lemma init_fields {B : Backend} (album : option string) (skip : bool)
    (tracker_file : option (gmap string TrackerEntry)) (w : World B) :
  skip_duplicates (sys_self (init album skip tracker_file w)) = skip
  ∧ uploaded_photos (sys_self (init album skip tracker_file w))
    = default ∅ tracker_file
  ∧ upload_results (sys_self (init album skip tracker_file w)) = []
  ∧ sys_log (init album skip tracker_file w) = []
  ∧ album_name (sys_self (init album skip tracker_file w))
    = if truthy_opt album then default "" album
      else "Drive Import " +:+ strftime_Ymd_HM (datetime_now B w).1.
Proof.
  unfold init. destruct (truthy_opt album); [done|].
  by destruct (datetime_now B w).
Qed.

Lemma filter_create_album_none (evs : list Event) :
  Forall (λ e, is_create_album e = false) evs →
  filter (λ e, is_create_album e = true) evs = [].
Proof.
  induction 1 as [|e evs He _ IH]; [done|].
  rewrite filter_cons, decide_False by congruence. exact IH.
Qed.

(** *** The claims *)

(** C5. [is_duplicate] answers true exactly when duplicate-skipping is on
    and either the checksum is a non-empty string that is a key of the
    tracker, or some tracker entry records the given file id; with
    duplicate-skipping off it answers false for every input. *)
Theorem is_duplicate_characterised (self : PhotosUploader) (md5 : pyval)
    (fid : string) :
  (is_duplicate self md5 fid = true
   ↔ skip_duplicates self = true
     ∧ ((∃ s, md5 = PyStr s ∧ s ≠ "" ∧ is_Some (uploaded_photos self !! s))
        ∨ (∃ k e, uploaded_photos self !! k = Some e
                  ∧ te_file_id e = Some fid)))
  ∧ (skip_duplicates self = false → is_duplicate self md5 fid = false).
Proof.
  split; [apply is_duplicate_true|].
  intros Hoff. unfold is_duplicate. by rewrite Hoff.
Qed.

(** C6. The duplicate test is made on the state the iteration starts in.
    When it answers true, the iteration appends a SKIPPED_DUPLICATE result
    with [success] set, makes no call at all (no download, no upload, no
    tracker write) and leaves the tracker as it is; when it answers false,
    the first call of the iteration is the download. *)
Theorem duplicate_check_precedes_io {B : Backend} (photo : Photo) (s : Sys B) :
  ∃ r s' evs,
    upload_one photo s = (inr tt, s')
    ∧ upload_results (sys_self s') = (upload_results (sys_self s) ++ [r])%list
    ∧ sys_log s' = (sys_log s ++ evs)%list
    ∧ if is_duplicate (sys_self s) (photo_md5 photo) (id photo)
      then r_status r = Some SKIPPED_DUPLICATE ∧ r_success r = Some true
           ∧ evs = []
           ∧ uploaded_photos (sys_self s') = uploaded_photos (sys_self s)
      else r_status r ≠ Some SKIPPED_DUPLICATE
           ∧ ∃ rest, evs = EvDownload (id photo) :: rest.
Proof.
  destruct (upload_one_spec photo s)
    as (r & s' & evs & Hrun & Hres & _ & _ & _ & _ & _ & Hlog & _ & Hcase
        & Hskipped & _).
  exists r, s', evs. do 3 (split; [done|]).
  destruct (is_duplicate (sys_self s) (photo_md5 photo) (id photo)).
  - destruct Hcase as (-> & Hs & Ht). split; [by apply Hskipped|done].
  - split; [|done]. intros Hst. by apply Hskipped in Hst.
Qed.

(** C10. With duplicate-skipping on, a photo whose id is the file id of
    some tracker entry is a duplicate whatever its checksum is, so also
    when the checksum is a non-empty string that is no key of the tracker:
    its iteration appends SKIPPED_DUPLICATE and makes no call. *)
Theorem known_file_id_is_duplicate {B : Backend} (photo : Photo) (s : Sys B)
    (k : string) (e : TrackerEntry) :
  skip_duplicates (sys_self s) = true →
  uploaded_photos (sys_self s) !! k = Some e →
  te_file_id e = Some (id photo) →
  is_duplicate (sys_self s) (photo_md5 photo) (id photo) = true
  ∧ ∃ r s', upload_one photo s = (inr tt, s')
      ∧ upload_results (sys_self s') = (upload_results (sys_self s) ++ [r])%list
      ∧ r_status r = Some SKIPPED_DUPLICATE
      ∧ sys_log s' = sys_log s.
Proof.
  intros Hon Hk Hfid.
  assert (is_duplicate (sys_self s) (photo_md5 photo) (id photo) = true) as Hd.
  { apply is_duplicate_true. split; [done|]. right. by exists k, e. }
  split; [done|].
  destruct (upload_one_spec photo s)
    as (r & s' & evs & Hrun & Hres & _ & _ & _ & _ & _ & Hlog & _ & Hcase
        & Hskipped & _).
  rewrite Hd in Hcase. destruct Hcase as (-> & _ & _).
  exists r, s'. rewrite app_nil_r in Hlog.
  repeat split; try done. by apply Hskipped.
Qed.

Lemma known_file_id_is_duplicate_witness :
  (photo_md5 photo1_edited = PyStr "fff999"
   ∧ uploaded_photos (sys_self with_tracker1) !! "fff999" = None)
  ∧ is_duplicate (sys_self with_tracker1) (photo_md5 photo1_edited)
                 (id photo1_edited) = true
    ∧ ∃ r s', upload_one photo1_edited with_tracker1 = (inr tt, s')
        ∧ upload_results (sys_self s')
          = (upload_results (sys_self with_tracker1) ++ [r])%list
        ∧ r_status r = Some SKIPPED_DUPLICATE
        ∧ sys_log s' = sys_log with_tracker1.
Proof.
  split; [split; vm_compute; reflexivity|].
  apply (known_file_id_is_duplicate photo1_edited with_tracker1 "abc123"
           (mkEntry (Some "f1") "photo-a.jpg" "My Drive/Photos/a.jpg"
                    "2024-03-05T09:07:30")).
  - reflexivity.
  - vm_compute; reflexivity.
  - reflexivity.
Defined.

(** C4. Once the album exists, [upload_all] returns, whatever the world
    answers for any photo: one result per photo, in the order of the
    input, each carrying the id and path of its photo, with [success] true
    exactly for the statuses SUCCESS and SKIPPED_DUPLICATE. *)
Theorem upload_all_one_result_per_photo {B : Backend} (photos : list Photo)
    (s s1 : Sys B) (a : option string) :
  create_album s = (inr a, s1) →
  ∃ results s',
    upload_all photos s = (inr results, s')
    ∧ upload_results (sys_self s') = results
    ∧ length results = length photos
    ∧ Forall2 (λ photo r, result_of photo r ∧ result_consistent r)
              photos results.
Proof.
  intros Hca. pose proof (upload_all_spec photos s) as Hall.
  rewrite Hca in Hall.
  destruct Hall as (results & s' & evs & Hrun & _ & Hres & _ & Hf2 & _).
  exists results, s'. repeat split; try done.
  symmetry. by eapply Forall2_length.
Qed.

Lemma upload_all_one_result_per_photo_witness :
  ∃ results s',
    upload_all [photo1; photo2; photo1_edited] (fresh batch_500 true None 0%nat)
    = (inr results, s')
    ∧ upload_results (sys_self s') = results
    ∧ length results = length [photo1; photo2; photo1_edited]
    ∧ Forall2 (λ photo r, result_of photo r ∧ result_consistent r)
              [photo1; photo2; photo1_edited] results.
Proof.
  eapply (upload_all_one_result_per_photo (B:=batch_500)
            [photo1; photo2; photo1_edited] (fresh batch_500 true None 0%nat)).
  vm_compute. reflexivity.
Defined.

(** The default album name on 5 March 2024 at 09:07:30. *)
Example default_album_name :
  album_name (sys_self (init (B:=all_ok) None true None 0%nat))
  = "Drive Import 2024-03-05 09:07".
Proof. vm_compute. reflexivity. Qed.

(** C9. A run names its album after the caller's name when that is a
    non-empty string, and "Drive Import <date> <hour>:<minute>" of the
    current local time otherwise; it makes exactly one album request, with
    that name; and when the reply to that request is not HTTP 200 the run
    raises with the album request as its only call (nothing is downloaded
    or uploaded) and with no upload result. *)
Theorem run_creates_one_album {B : Backend} (album : option string)
    (skip : bool) (tracker_file : option (gmap string TrackerEntry))
    (photos : list Photo) (w : World B) :
  album_name (sys_self (init album skip tracker_file w))
  = (if truthy_opt album then default "" album
     else "Drive Import " +:+ strftime_Ymd_HM (datetime_now B w).1)
  ∧ filter (λ e, is_create_album e = true)
           (sys_log (run album skip tracker_file photos w).2)
    = [EvCreateAlbum (album_name (sys_self (init album skip tracker_file w)))]
  ∧ (∀ response w',
       post_albums B (album_name (sys_self (init album skip tracker_file w)))
                   (sys_world (init album skip tracker_file w))
       = (inr response, w') →
       status_code response ≠ 200 →
       (run album skip tracker_file photos w).1
       = inl ("Failed to create album: " +:+ pretty (status_code response)
              +:+ " - " +:+ text response)
       ∧ sys_log (run album skip tracker_file photos w).2
         = [EvCreateAlbum
              (album_name (sys_self (init album skip tracker_file w)))]
       ∧ upload_results (sys_self (run album skip tracker_file photos w).2)
         = []).
Proof.
  destruct (init_fields album skip tracker_file w)
    as (_ & _ & Hres0 & Hlog0 & Hname).
  split; [exact Hname|].
  unfold run. set (s0 := init album skip tracker_file w) in *.
  pose proof (upload_all_spec photos s0) as Hall.
  destruct (create_album_spec s0)
    as (res & s1 & Hca & Hlog1 & Hres1 & _ & _ & _ & Hfail).
  rewrite Hca in Hall. rewrite Hlog0 in Hlog1. simpl in Hlog1.
  split.
  - destruct res as [e|a].
    + rewrite Hall. simpl. rewrite Hlog1. reflexivity.
    + destruct Hall as (results & s' & evs & -> & _ & _ & _ & _ & Hlog & Hev & _).
      simpl. rewrite Hlog, Hlog0. simpl.
      rewrite filter_cons, decide_True by done.
      by rewrite filter_create_album_none.
  - intros response w' Hpost Hcode.
    specialize (Hfail response w' Hpost Hcode). subst res.
    rewrite Hall. simpl. by rewrite Hlog1, Hres1, Hres0.
Qed.

Lemma run_creates_one_album_witness :
  (run (B:=album_403) None true None [photo1; photo2] 0%nat).1
  = inl "Failed to create album: 403 - denied"
  ∧ sys_log (run (B:=album_403) None true None [photo1; photo2] 0%nat).2
    = [EvCreateAlbum "Drive Import 2024-03-05 09:07"]
  ∧ upload_results
      (sys_self (run (B:=album_403) None true None [photo1; photo2] 0%nat).2)
    = [].
Proof.
  apply (proj2 (proj2 (run_creates_one_album (B:=album_403) None true None
                         [photo1; photo2] 0%nat))
           (mkResponse 403 "denied" (inr (Some "album-1"))) 0%nat).
  - reflexivity.
  - vm_compute. discriminate.
Defined.

(** C2, as stated, fails: a [batchCreate] reply of HTTP 500 with body
    "boom" gives a FAILED result whose error text is not "boom". *)
Lemma batchCreate_error_text_is_not_the_body :
  post_batchCreate batch_500 "token-a.jpg" "a.jpg" (Some "album-1") 1%nat
  = (inr (mkResponse 500 "boom"
            (inr [ mkNewItem
                     (Some (mkItemStatus (Some "Success")
                                         "{'message': 'Success'}"))
                     (Some "photo-a.jpg") ])), 1%nat)
  ∧ sys_log batch_500_run.2
    = [ EvCreateAlbum "Drive Import 2024-03-05 09:07"; EvDownload "f1";
        EvPostUploads "a.jpg"; EvBatchCreate "a.jpg" ]
  ∧ ∃ r, batch_500_run.1 = inr [r]
      ∧ r_status r = Some FAILED
      ∧ r_error r = Some "Media item creation failed: 500 - boom"
      ∧ r_error r ≠ Some "boom".
Proof.
  split; [reflexivity|]. split; [vm_compute; reflexivity|].
  eexists. split; [vm_compute; reflexivity|].
  simpl. repeat split; discriminate.
Qed.

(** C2, amended. For a photo that is not a duplicate, whose download and
    byte upload succeed and whose [batchCreate] request is answered with a
    status other than 200: the result is FAILED with [success] false, its
    error text is "Media item creation failed: <status> - <body>", the
    tracker map is unchanged and the calls made are the download and the
    two requests, so the tracker file is not written. *)
Theorem batchCreate_failure_is_reported {B : Backend} (photo : Photo)
    (s : Sys B) (d : datetime) (w1 w2 w3 w4 : World B)
    (file_data : list Byte.byte) (response1 : Response unit)
    (response2 : Response (list NewMediaItemResult)) :
  is_duplicate (sys_self s) (photo_md5 photo) (id photo) = false →
  datetime_now B (sys_world s) = (d, w1) →
  drive_get_media B (id photo) w1 = (inr file_data, w2) →
  post_uploads B file_data (path_name B (path photo)) (mimeType photo) w2
  = (inr response1, w3) →
  status_code response1 = 200 →
  post_batchCreate B (text response1) (path_name B (path photo))
    (if truthy_opt (album_id (sys_self s)) then album_id (sys_self s)
     else None) w3 = (inr response2, w4) →
  status_code response2 ≠ 200 →
  ∃ r s',
    upload_one photo s = (inr tt, s')
    ∧ upload_results (sys_self s') = (upload_results (sys_self s) ++ [r])%list
    ∧ r_status r = Some FAILED
    ∧ r_success r = Some false
    ∧ r_error r = Some ("Media item creation failed: "
                        +:+ pretty (status_code response2)
                        +:+ " - " +:+ text response2)
    ∧ uploaded_photos (sys_self s') = uploaded_photos (sys_self s)
    ∧ sys_log s'
      = (sys_log s ++ [ EvDownload (id photo);
                        EvPostUploads (path_name B (path photo));
                        EvBatchCreate (path_name B (path photo)) ])%list.
Proof.
  intros Hdup Hnow Hget Hup Hc1 Hbatch Hc2.
  destruct s as [w self log]. simpl in *.
  apply Nat.eqb_neq in Hc2.
  unfold_upload. simpl.
  rewrite Hdup. simpl. rewrite Hnow. simpl. rewrite Hget. simpl. rewrite Hup. simpl.
  rewrite Hc1. simpl. rewrite Hbatch. simpl. rewrite Hc2. simpl.
  do 2 eexists. split; [reflexivity|]. simpl.
  rewrite <- !app_assoc. simpl. repeat split.
Qed.

Lemma batchCreate_failure_is_reported_witness :
  ∃ r s',
    upload_one photo1 (fresh batch_500 true None 0%nat) = (inr tt, s')
    ∧ upload_results (sys_self s')
      = (upload_results (sys_self (fresh batch_500 true None 0%nat)) ++ [r])%list
    ∧ r_status r = Some FAILED
    ∧ r_success r = Some false
    ∧ r_error r = Some ("Media item creation failed: " +:+ pretty 500
                        +:+ " - " +:+ "boom")
    ∧ uploaded_photos (sys_self s')
      = uploaded_photos (sys_self (fresh batch_500 true None 0%nat))
    ∧ sys_log s'
      = (sys_log (fresh batch_500 true None 0%nat)
         ++ [ EvDownload "f1"; EvPostUploads "a.jpg"; EvBatchCreate "a.jpg" ])%list.
Proof.
  apply (batchCreate_failure_is_reported (B:=batch_500) photo1
           (fresh batch_500 true None 0%nat)
           (mkDatetime 2024 3 5 9 7 30 0) 0%nat 1%nat 1%nat 1%nat []
           (mkResponse 200 "token-a.jpg" (inl "not JSON"))
           (mkResponse 500 "boom"
              (inr [ mkNewItem
                       (Some (mkItemStatus (Some "Success")
                                           "{'message': 'Success'}"))
                       (Some "photo-a.jpg") ]))).
  - vm_compute. reflexivity.
  - reflexivity.
  - reflexivity.
  - reflexivity.
  - reflexivity.
  - reflexivity.
  - vm_compute. discriminate.
Defined.

(** C3, as stated, fails with duplicate-skipping off: in a run over two
    photos with the same checksum, the entry written for the first photo
    is replaced by the entry of the second one. *)
Lemma entry_overwritten_without_skipping :
  skip_duplicates (sys_self no_skip_start) = false
  ∧ ∃ s_mid s_end results e,
      no_skip_mid = (inr tt, s_mid)
      ∧ no_skip_end = (inr results, s_end)
      ∧ uploaded_photos (sys_self s_mid) !! "abc123" = Some e
      ∧ te_file_id e = Some "f1"
      ∧ uploaded_photos (sys_self s_end) !! "abc123" ≠ Some e.
Proof.
  split; [reflexivity|].
  do 4 eexists.
  split; [vm_compute; reflexivity|].
  split; [vm_compute; reflexivity|].
  split; [vm_compute; reflexivity|].
  split; [reflexivity|].
  vm_compute. discriminate.
Qed.

(** C3, amended. From any point of a run that has processed the photos
    [done], the run over [done ++ rest] ends normally and its tracker has
    one entry per key, whatever the duplicate-skipping flag; and with
    duplicate-skipping on, every entry the tracker held at that point is
    still there, unchanged, at the end. *)
Theorem entries_kept_when_skipping {B : Backend} (done rest : list Photo)
    (s s_mid : Sys B) :
  upload_all_until done s = (inr tt, s_mid) →
  ∃ results s_end,
    upload_all (done ++ rest) s = (inr results, s_end)
    ∧ NoDup (map_to_list (uploaded_photos (sys_self s_end))).*1
    ∧ (skip_duplicates (sys_self s) = true →
       ∀ k e, uploaded_photos (sys_self s_mid) !! k = Some e →
              uploaded_photos (sys_self s_end) !! k = Some e).
Proof.
  intros Hmid.
  rewrite (upload_all_through_prefix done rest s s_mid Hmid).
  assert (skip_duplicates (sys_self s_mid) = skip_duplicates (sys_self s))
    as Hsk_mid.
  { revert Hmid. unfold upload_all_until, mbind, M_bind, bind.
    destruct (create_album_spec s) as (res & s1 & -> & _ & _ & _ & Hsk & _).
    destruct res as [e|a]; [discriminate|].
    unfold modify_self. simpl.
    destruct (upload_loop_spec done
                (mkSys (sys_world s1) (set_upload_results [] (sys_self s1))
                       (sys_log s1)))
      as (rs & s' & evs & -> & _ & _ & _ & Hsk' & _).
    intros [= <-]. simpl in Hsk'. congruence. }
  destruct (upload_loop_spec rest s_mid)
    as (rs & s_end & evs & Hrun & _ & _ & _ & _ & _ & _ & _ & Hskip).
  unfold mbind, M_bind, bind, get_self, ret. rewrite Hrun. simpl.
  do 2 eexists. split; [reflexivity|].
  split; [apply NoDup_fst_map_to_list|].
  intros Hon k e Hk. rewrite <- Hsk_mid in Hon.
  destruct (Hskip Hon) as (Hsub & _). by eapply lookup_weaken.
Qed.

Lemma entries_kept_when_skipping_witness :
  ∃ results s_end,
    upload_all ([photo1] ++ [photo2; photo1_edited])
               (fresh all_ok true None 0%nat) = (inr results, s_end)
    ∧ NoDup (map_to_list (uploaded_photos (sys_self s_end))).*1
    ∧ ∀ k e,
        uploaded_photos
          (sys_self (upload_all_until [photo1]
                       (fresh all_ok true None 0%nat)).2) !! k = Some e →
        uploaded_photos (sys_self s_end) !! k = Some e.
Proof.
  assert (upload_all_until [photo1] (fresh all_ok true None 0%nat)
          = (inr tt, (upload_all_until [photo1]
                        (fresh all_ok true None 0%nat)).2)) as Hmid
    by (vm_compute; reflexivity).
  destruct (entries_kept_when_skipping (B:=all_ok) [photo1]
              [photo2; photo1_edited] (fresh all_ok true None 0%nat) _ Hmid)
    as (results & s_end & Hrun & Hnodup & Hkept).
  exists results, s_end.
  split; [exact Hrun|]. split; [exact Hnodup|]. exact (Hkept eq_refl).
Defined.

(** *** Two runs and the tracker file between them *)

(** What the calls of the world do to the tracker file, read off the
    equations a case analysis leaves in the context. *)
Ltac file_facts F :=
  repeat match goal with
  | H : datetime_now _ ?w = (_, _) |- _ =>
      let Hf := fresh "Hfile" in
      pose proof (now_keeps_file F w) as Hf;
      rewrite H in Hf; simpl in Hf; clear H
  | H : drive_get_media _ ?i ?w = (_, _) |- _ =>
      let Hf := fresh "Hfile" in
      pose proof (get_media_keeps_file F i w) as Hf;
      rewrite H in Hf; simpl in Hf; clear H
  | H : post_uploads _ ?a ?b ?c ?w = (_, _) |- _ =>
      let Hf := fresh "Hfile" in
      pose proof (uploads_keeps_file F a b c w) as Hf;
      rewrite H in Hf; simpl in Hf; clear H
  | H : post_batchCreate _ ?a ?b ?c ?w = (_, _) |- _ =>
      let Hf := fresh "Hfile" in
      pose proof (batchCreate_keeps_file F a b c w) as Hf;
      rewrite H in Hf; simpl in Hf; clear H
  | H : json_dump_tracker _ ?m ?w = (_, _) |- _ =>
      let Hf := fresh "Hfile" in
      pose proof (dump_then_load F m w) as Hf;
      rewrite H in Hf; simpl in Hf; clear H
  end.

(** An iteration that starts with the file holding the tracker of the
    instance ends that way, unless its write of the tracker raised. *)
Lemma upload_one_keeps_file {B : Backend} (F : TrackerFile B) (photo : Photo)
    (s : Sys B) :
  ∃ r s', upload_one photo s = (inr tt, s')
    ∧ upload_results (sys_self s') = (upload_results (sys_self s) ++ [r])%list
    ∧ (save_failed r = false →
       _load_uploaded_tracker F (sys_world s) = uploaded_photos (sys_self s) →
       _load_uploaded_tracker F (sys_world s')
       = uploaded_photos (sys_self s')).
Proof.
  destruct s as [w self log].
  unfold_upload. simpl.
  repeat case_match; simplify_eq/=.
  all: do 2 eexists; split; [reflexivity|]; simpl.
  all: split; [reflexivity|].
  all: intros Hsf Hinv; try discriminate Hsf.
  all: file_facts F.
  all: try congruence.
  all: auto.
Qed.

(** [save_failed] marks failed writes only: a result of that shape comes
    from an iteration whose last call was a write of the tracker that
    raised, and its error text is the message of that exception. *)
Lemma save_failed_is_a_failed_write {B : Backend} (photo : Photo)
    (s s' : Sys B) (r : UploadResult) :
  upload_one photo s = (inr tt, s') →
  last (upload_results (sys_self s')) = Some r →
  save_failed r = true →
  ∃ w e, json_dump_tracker B (uploaded_photos (sys_self s')) w
         = (Some e, sys_world s')
         ∧ r_error r = Some e
         ∧ last (sys_log s')
           = Some (EvSaveTracker (uploaded_photos (sys_self s'))).
Proof.
  destruct s as [w self log].
  unfold_upload. simpl.
  repeat case_match; simplify_eq/=.
  all: intros [= <-]; simpl; rewrite last_snoc; intros [= <-] Hsf.
  all: try discriminate Hsf.
  all: do 2 eexists; split; [eassumption|]; split; [reflexivity|].
  all: apply last_snoc.
Qed.

Lemma upload_loop_keeps_file {B : Backend} (F : TrackerFile B)
    (photos : list Photo) :
  ∀ (s s' : Sys B) (rs : list UploadResult),
    upload_loop photos s = (inr tt, s') →
    upload_results (sys_self s') = (upload_results (sys_self s) ++ rs)%list →
    existsb save_failed rs = false →
    _load_uploaded_tracker F (sys_world s) = uploaded_photos (sys_self s) →
    _load_uploaded_tracker F (sys_world s') = uploaded_photos (sys_self s').
Proof.
  induction photos as [|photo photos IH]; intros s s' rs Hrun Hres Hok Hinv.
  - simpl in Hrun. unfold mret, M_ret, ret in Hrun. by simplify_eq.
  - destruct (upload_one_keeps_file F photo s)
      as (r & s1 & Hrun1 & Hres1 & Hkeep).
    simpl in Hrun. unfold mbind, M_bind, bind in Hrun. rewrite Hrun1 in Hrun.
    destruct (upload_loop_spec photos s1)
      as (rs' & s2 & evs & Hrun2 & Hres2 & _).
    rewrite Hrun in Hrun2. injection Hrun2 as <-.
    rewrite Hres2, Hres1, <- app_assoc in Hres.
    apply app_inv_head in Hres. subst rs. simpl in Hok.
    apply orb_false_iff in Hok as [Hr Hrs].
    eapply IH; [exact Hrun | exact Hres2 | exact Hrs |].
    by apply Hkeep.
Qed.

(** The clock does not touch the file, so [__init__] holds what the file
    decodes to in the world it is called in. *)
Lemma init_from_file_init {B : Backend} (F : TrackerFile B)
    (album : option string) (skip : bool) (w : World B) :
  init_from_file F album skip w
  = init album skip (Some (_load_uploaded_tracker F w)) w.
Proof.
  unfold init_from_file, init.
  destruct (truthy_opt album); [reflexivity|].
  pose proof (now_keeps_file F w) as Hnow.
  destruct (datetime_now B w) as [d w']. simpl in *. by rewrite Hnow.
Qed.

Lemma create_album_keeps_file {B : Backend} (F : TrackerFile B) (s : Sys B) :
  _load_uploaded_tracker F (sys_world (create_album s).2)
  = _load_uploaded_tracker F (sys_world s).
Proof.
  destruct s as [w self log].
  unfold create_album, response_json, call, get_self, modify_self,
    mbind, M_bind, bind, ret, raise. simpl.
  pose proof (albums_keeps_file F (album_name self) w) as Halb.
  destruct (post_albums B (album_name self) w) as [[e|response] w1];
    simpl in *; [done|].
  destruct (negb _); [done|].
  by destruct (json response).
Qed.

(** A returning run in which no write of the tracker raised ends with the
    file holding the tracker of the instance. *)
Lemma run_leaves_tracker_in_file {B : Backend} (F : TrackerFile B)
    (album : option string) (skip : bool) (photos : list Photo)
    (w : World B) (results : list UploadResult) (s' : Sys B) :
  run_from_file F album skip photos w = (inr results, s') →
  existsb save_failed results = false →
  _load_uploaded_tracker F (sys_world s') = uploaded_photos (sys_self s').
Proof.
  unfold run_from_file. rewrite init_from_file_init.
  set (t := init album skip (Some (_load_uploaded_tracker F w)) w).
  intros Hrun Hok.
  assert (_load_uploaded_tracker F (sys_world t) = uploaded_photos (sys_self t))
    as Hinv.
  { unfold t. rewrite <- init_from_file_init. reflexivity. }
  pose proof (upload_all_spec photos t) as Hall.
  pose proof (create_album_keeps_file F t) as Hfile.
  destruct (create_album_spec t)
    as (res & t1 & Hca & _ & _ & _ & _ & Hup1 & _).
  rewrite Hca in Hall, Hfile. simpl in Hfile.
  destruct res as [e|a].
  { rewrite Hall in Hrun. discriminate. }
  destruct Hall as (rs & s1 & evs & Heq & Hloop & Hres & _).
  rewrite Heq in Hrun. injection Hrun as -> ->.
  eapply (upload_loop_keeps_file F photos _ _ results Hloop); simpl.
  - by rewrite Hres.
  - exact Hok.
  - by rewrite Hfile, Hup1.
Qed.

(** An instance that starts with the tracker another run ended with skips
    what that run uploaded or skipped. *)
Lemma rerun_from_tracker {B : Backend}
    (album1 album2 : option string)
    (tracker_file : option (gmap string TrackerEntry))
    (photos : list Photo) (w1 w2 : World B)
    (results1 results2 : list UploadResult) (s1 s2 : Sys B) :
  run album1 true tracker_file photos w1 = (inr results1, s1) →
  run album2 true (Some (uploaded_photos (sys_self s1))) photos w2
  = (inr results2, s2) →
  ∀ (i : nat) (photo : Photo) (r1 : UploadResult),
    photos !! i = Some photo →
    truthy (photo_md5 photo) = true →
    results1 !! i = Some r1 →
    r_status r1 = Some SUCCESS ∨ r_status r1 = Some SKIPPED_DUPLICATE →
    ∃ r2, results2 !! i = Some r2 ∧ r_status r2 = Some SKIPPED_DUPLICATE.
Proof.
  unfold run. intros Hrun1 Hrun2 i photo r1 Hphoto Htruthy Hr1 Hst.
  set (t1 := init album1 true tracker_file w1) in *.
  set (t2 := init album2 true (Some (uploaded_photos (sys_self s1))) w2) in *.
  destruct (init_fields album1 true tracker_file w1) as (Hsk1 & _).
  destruct (init_fields album2 true (Some (uploaded_photos (sys_self s1))) w2)
    as (Hsk2 & Hup2 & _).
  fold t1 in Hsk1. fold t2 in Hsk2, Hup2. simpl in Hup2.
  pose proof (upload_all_spec photos t1) as Hall1.
  pose proof (upload_all_spec photos t2) as Hall2.
  destruct (create_album t1) as [[e|a1] u1].
  { rewrite Hall1 in Hrun1. discriminate. }
  destruct (create_album t2) as [[e|a2] u2].
  { rewrite Hall2 in Hrun2. discriminate. }
  destruct Hall1 as (rs1 & s1' & evs1 & Heq1 & _ & _ & Hskend & _ & _ & _ & Hf1).
  destruct Hall2 as (rs2 & s2' & evs2 & Heq2 & _ & _ & _ & _ & _ & _ & Hf2).
  rewrite Heq1 in Hrun1. injection Hrun1 as -> ->.
  rewrite Heq2 in Hrun2. injection Hrun2 as -> ->.
  destruct (Hf1 Hsk1) as (_ & _ & Hpost).
  destruct (Hf2 Hsk2) as (_ & Hpre & _).
  pose proof (Forall2_lookup_lr _ _ _ _ _ _ Hpost Hphoto Hr1 Htruthy Hst)
    as Hdup1.
  destruct (Forall2_lookup_l _ _ _ _ _ Hpre Hphoto) as (r2 & Hr2 & Himp).
  exists r2. split; [done|]. apply Himp.
  eapply is_duplicate_mono; [| | exact Hdup1].
  - congruence.
  - by rewrite Hup2.
Qed.

(** Why the tracker writes of the first run matter: [record_upload] puts
    the entry into the map before it writes the file, and the file is
    what the next run loads.  Here the first write of the first run
    raises and leaves the file empty: [photo3], skipped in the first run
    on the strength of the file as it was, is uploaded by the second. *)
Lemma lost_write_is_uploaded_again :
  truthy (photo_md5 photo3) = true
  ∧ (∃ r1 r3, lost_run1.1 = inr [r1; r3]
              ∧ r_status r1 = Some ERROR ∧ save_failed r1 = true
              ∧ r_status r3 = Some SKIPPED_DUPLICATE)
  ∧ (∃ r1 r3, lost_run2.1 = inr [r1; r3]
              ∧ r_status r1 = Some SUCCESS ∧ r_status r3 = Some SUCCESS).
Proof.
  split; [reflexivity|]. split.
  - do 2 eexists. split; [vm_compute; reflexivity|]. by repeat split.
  - do 2 eexists. split; [vm_compute; reflexivity|]. by repeat split.
Qed.

(** C7, as stated, fails: a photo with a non-empty checksum whose download
    raised in the first run is uploaded by the second run, which loads the
    tracker file the first run left (no write of it failed). *)
Lemma second_run_uploads_what_first_run_missed :
  truthy (photo_md5 photo1) = true
  ∧ (∃ r1, missed_run1.1 = inr [r1] ∧ r_status r1 = Some ERROR
           ∧ save_failed r1 = false)
  ∧ (∃ r2, missed_run2.1 = inr [r2] ∧ r_status r2 = Some SUCCESS
           ∧ r_status r2 ≠ Some SKIPPED_DUPLICATE).
Proof.
  split; [reflexivity|]. split.
  - eexists. split; [vm_compute; reflexivity|]. by split.
  - eexists. split; [vm_compute; reflexivity|]. split; [reflexivity|].
    discriminate.
Qed.

(** C7, amended. Two runs of the program over the same list with
    duplicate-skipping on, each loading the tracker from
    uploaded_photos.json when it starts.  No write of the tracker file
    raised in the first run, and the second run finds the file as the
    first run left it.  Then every photo with a non-empty checksum whose
    result in the first run was SUCCESS or SKIPPED_DUPLICATE gets
    SKIPPED_DUPLICATE in the second run, whatever else the world answers
    in either run. *)
Theorem second_run_skips_transferred {B : Backend} (F : TrackerFile B)
    (album1 album2 : option string)
    (photos : list Photo) (w1 w2 : World B)
    (results1 results2 : list UploadResult) (s1 s2 : Sys B) :
  run_from_file F album1 true photos w1 = (inr results1, s1) →
  existsb save_failed results1 = false →
  _load_uploaded_tracker F w2 = _load_uploaded_tracker F (sys_world s1) →
  run_from_file F album2 true photos w2 = (inr results2, s2) →
  ∀ (i : nat) (photo : Photo) (r1 : UploadResult),
    photos !! i = Some photo →
    truthy (photo_md5 photo) = true →
    results1 !! i = Some r1 →
    r_status r1 = Some SUCCESS ∨ r_status r1 = Some SKIPPED_DUPLICATE →
    ∃ r2, results2 !! i = Some r2 ∧ r_status r2 = Some SKIPPED_DUPLICATE.
Proof.
  intros Hrun1 Hok Hsame Hrun2.
  pose proof (run_leaves_tracker_in_file F _ _ _ _ _ _ Hrun1 Hok) as Hfile.
  unfold run_from_file in Hrun1, Hrun2.
  rewrite init_from_file_init in Hrun1, Hrun2.
  rewrite Hsame, Hfile in Hrun2.
  exact (rerun_from_tracker album1 album2 _ photos w1 w2 results1 results2
           s1 s2 Hrun1 Hrun2).
Qed.

Lemma second_run_skips_transferred_witness :
  ∃ r2, returned kept_run2.1 !! 0%nat = Some r2
        ∧ r_status r2 = Some SKIPPED_DUPLICATE.
Proof.
  apply (second_run_skips_transferred (disk_file 0 0) None None
           [photo1; photo2] no_file (sys_world kept_run1.2)
           (returned kept_run1.1) (returned kept_run2.1)
           kept_run1.2 kept_run2.2)
    with (photo := photo1)
         (r1 := mkResult "My Drive/Photos/a.jpg" "f1" "2024-03-05T09:07:30"
                  (PyStr "abc123") (Some true) (Some SUCCESS)
                  (Some "photo-a.jpg") None).
  - vm_compute. reflexivity.
  - vm_compute. reflexivity.
  - reflexivity.
  - vm_compute. reflexivity.
  - reflexivity.
  - reflexivity.
  - vm_compute. reflexivity.
  - left. reflexivity.
Defined.

End UploadProps.

(* ===================================================================== *)
(** ** Further properties of the uploader                                *)
(* ===================================================================== *)

Module UploadExtra.
Import Photos Fixtures Pipeline UploadProps.

(** *** What one iteration does, case by case *)

(** A second collection of facts about one iteration of the loop: the
    calls it makes and the entry it may put in the tracker. *)
Lemma upload_one_effects {B : Backend} (photo : Photo) (s : Sys B) :
  ∃ r s' evs, upload_one photo s = (inr tt, s')
    ∧ upload_results (sys_self s') = (upload_results (sys_self s) ++ [r])%list
    ∧ skip_duplicates (sys_self s') = skip_duplicates (sys_self s)
    ∧ sys_log s' = (sys_log s ++ evs)%list
    ∧ r_file_id r = id photo
    ∧ evs `prefix_of` call_order (id photo) (path_name B (path photo))
                                 (uploaded_photos (sys_self s'))
    ∧ downloads evs = (if transferred r then [id photo] else [])
    ∧ (r_status r = Some FAILED ∨ r_status r = Some SKIPPED_DUPLICATE →
       uploaded_photos (sys_self s') = uploaded_photos (sys_self s)
       ∧ Forall (λ e, is_save e = false) evs)
    ∧ (uploaded_photos (sys_self s') = uploaded_photos (sys_self s)
       ∨ ∃ key pid ts, photo_md5 photo = PyStr key ∧ key ≠ ""
           ∧ uploaded_photos (sys_self s')
             = <[key := mkEntry (Some (id photo)) pid (path photo) ts]>
                 (uploaded_photos (sys_self s)))
    ∧ (r_status r = Some SUCCESS →
       r_success r = Some true
       ∧ ∃ pid, r_photos_id r = Some pid
           ∧ (truthy (photo_md5 photo) = true →
              ∃ key ts, photo_md5 photo = PyStr key
                ∧ uploaded_photos (sys_self s') !! key
                  = Some (mkEntry (Some (id photo)) pid (path photo) ts))
           ∧ (truthy (photo_md5 photo) = false →
              uploaded_photos (sys_self s') = uploaded_photos (sys_self s)))
    ∧ (transferred r = false
       ↔ is_duplicate (sys_self s) (photo_md5 photo) (id photo) = true).
Proof.
  destruct s as [w self log].
  unfold_upload. simpl.
  repeat case_match; simplify_eq/=.
  all: do 3 eexists; split; [reflexivity|]; simpl.
  all: rewrite <- ?app_assoc; simpl.
  all: split; [reflexivity|].
  all: split; [reflexivity|].
  all: split; [first [reflexivity | symmetry; apply app_nil_r]|].
  all: split; [reflexivity|].
  all: split; [unfold call_order; eexists; simpl; reflexivity|].
  all: split; [reflexivity|].
  all: key_facts.
  all: split; [intros [?|?]; simplify_eq/=;
               try (split; [reflexivity|repeat constructor])|].
  all: split; [first [by left | right; eexists _, _, _; repeat split; eauto]|].
  all: split; [|unfold transferred; simpl; split; intros; first [done|discriminate]].
  all: intros Hs; simpl in Hs; try discriminate.
  all: split; [reflexivity|]; eexists; split; [reflexivity|].
  all: split; intros ?; first [discriminate | reflexivity | idtac].
  all: eexists _, _; split; [reflexivity | apply lookup_insert_eq].
Qed.

Lemma downloads_app (evs1 evs2 : list Event) :
  downloads (evs1 ++ evs2) = (downloads evs1 ++ downloads evs2)%list.
Proof. apply omap_app. Qed.

(** The loop, seen through [upload_one_effects]. *)
Lemma upload_loop_effects {B : Backend} (photos : list Photo) :
  ∀ s : Sys B,
  ∃ rs s' evs, upload_loop photos s = (inr tt, s')
    ∧ upload_results (sys_self s') = (upload_results (sys_self s) ++ rs)%list
    ∧ skip_duplicates (sys_self s') = skip_duplicates (sys_self s)
    ∧ sys_log s' = (sys_log s ++ evs)%list
    ∧ map r_file_id rs = map id photos
    ∧ downloads evs
      = map r_file_id (filter (λ r, transferred r = true) rs)
    ∧ dom (uploaded_photos (sys_self s)) ⊆ dom (uploaded_photos (sys_self s'))
    ∧ (∀ k e, uploaded_photos (sys_self s') !! k = Some e →
         uploaded_photos (sys_self s) !! k = Some e
         ∨ ∃ photo, photo ∈ photos ∧ photo_md5 photo = PyStr k ∧ k ≠ ""
             ∧ te_file_id e = Some (id photo) ∧ te_path e = path photo)
    ∧ (skip_duplicates (sys_self s) = false →
       Forall (λ r, transferred r = true) rs).
Proof.
  induction photos as [|photo photos IH]; intros s.
  - exists [], s, []. simpl. rewrite !app_nil_r.
    repeat split; try done. intros k e He. by left.
  - destruct (upload_one_effects photo s)
      as (r & s1 & evs1 & Hrun1 & Hres1 & Hsk1 & Hlog1 & Hid1 & _ & Hdl1 & _
          & Htr1 & _ & Hdup1).
    destruct (IH s1)
      as (rs & s' & evs & Hrun & Hres & Hsk & Hlog & Hids & Hdl & Hdom & Hnew
          & Hoff).
    exists (r :: rs), s', (evs1 ++ evs)%list.
    split. { simpl. unfold mbind, M_bind, bind. by rewrite Hrun1. }
    split. { by rewrite Hres, Hres1, <- app_assoc. }
    split; [congruence|].
    split. { by rewrite Hlog, Hlog1, <- app_assoc. }
    split. { simpl. by rewrite Hid1, Hids. }
    split.
    { rewrite downloads_app, Hdl1, Hdl, filter_cons.
      destruct (transferred r) eqn:Htr.
      - rewrite decide_True by done. simpl. by rewrite Hid1.
      - rewrite decide_False by done. done. }
    split.
    { etrans; [|exact Hdom].
      destruct Htr1 as [-> | (key & pid & ts & _ & _ & ->)]; [done|].
      rewrite dom_insert_L. apply union_subseteq_r. }
    split.
    { intros k e He. destruct (Hnew k e He) as [He1 | (p & Hp & Hrest)].
      - destruct Htr1 as [Heq | (key & pid & ts & Hmd5 & Hne & Heq)].
        + left. by rewrite <- Heq.
        + rewrite Heq in He1. destruct (decide (key = k)) as [<-|Hk].
          * rewrite lookup_insert_eq in He1. injection He1 as <-.
            right. exists photo. split; [by left|]. done.
          * rewrite lookup_insert_ne in He1 by done. by left.
      - right. exists p. split; [by right|]. done. }
    intros Hfalse. constructor.
    + destruct (transferred r) eqn:Htr; [done|].
      destruct Hdup1 as [Hd _]. specialize (Hd eq_refl).
      unfold is_duplicate in Hd. by rewrite Hfalse in Hd.
    + apply Hoff. congruence.
Qed.

(** [upload_all], seen through [upload_loop_effects]. *)
Lemma upload_all_effects {B : Backend} (photos : list Photo) (s : Sys B) :
  match upload_all photos s with
  | (inl e, s') =>
      uploaded_photos (sys_self s') = uploaded_photos (sys_self s)
      ∧ downloads (sys_log s') = downloads (sys_log s)
  | (inr results, s') =>
      map r_file_id results = map id photos
      ∧ downloads (sys_log s')
        = (downloads (sys_log s)
           ++ map r_file_id (filter (λ r, transferred r = true) results))%list
      ∧ dom (uploaded_photos (sys_self s))
        ⊆ dom (uploaded_photos (sys_self s'))
      ∧ (∀ k e, uploaded_photos (sys_self s') !! k = Some e →
           uploaded_photos (sys_self s) !! k = Some e
           ∨ ∃ photo, photo ∈ photos ∧ photo_md5 photo = PyStr k ∧ k ≠ ""
               ∧ te_file_id e = Some (id photo) ∧ te_path e = path photo)
      ∧ (skip_duplicates (sys_self s) = false →
         Forall (λ r, transferred r = true) results)
  end.
Proof.
  pose proof (upload_all_spec photos s) as Hall.
  destruct (create_album_spec s)
    as (res & s1 & Hca & Hlog1 & _ & _ & Hsk1 & Hup1 & _).
  rewrite Hca in Hall. destruct res as [e|a].
  - rewrite Hall. split; [done|].
    rewrite Hlog1, downloads_app. simpl. by rewrite app_nil_r.
  - destruct Hall as (results & s' & evs & -> & Hloop & Hres & _).
    destruct (upload_loop_effects photos
                (mkSys (sys_world s1) (set_upload_results [] (sys_self s1))
                       (sys_log s1)))
      as (rs & s2 & evs2 & Hrun & Hres2 & Hsk & Hlog & Hids & Hdl & Hdom
          & Hnew & Hoff).
    rewrite Hloop in Hrun. injection Hrun as <-.
    simpl in *. rewrite Hres in Hres2. subst rs.
    rewrite Hup1 in Hdom, Hnew. rewrite Hsk1 in Hoff.
    split; [done|]. split; [|done].
    rewrite Hlog, Hlog1, !downloads_app, Hdl. simpl.
    by rewrite app_nil_r.
Qed.

(** *** Properties *)

(** X1. Whatever the world answers, the calls one photo causes are an
    initial part of: its download, its byte upload, its registration, one
    write of the tracker as it then stands.  So a photo is downloaded at
    most once, nothing is uploaded that was not downloaded, and the
    tracker is written only after a registration. *)
Theorem calls_of_one_photo_in_order {B : Backend} (photo : Photo) (s : Sys B) :
  ∃ s' evs,
    upload_one photo s = (inr tt, s')
    ∧ sys_log s' = (sys_log s ++ evs)%list
    ∧ evs `prefix_of` call_order (id photo) (path_name B (path photo))
                                 (uploaded_photos (sys_self s')).
Proof.
  destruct (upload_one_effects photo s)
    as (r & s' & evs & Hrun & _ & _ & Hlog & _ & Hpre & _).
  by exists s', evs.
Qed.

(** X2. A run downloads exactly the photos it does not skip, once each
    and in the order of the list; a run that raises (at album creation)
    downloads nothing. *)
Theorem downloads_are_the_photos_not_skipped {B : Backend}
    (photos : list Photo) (s : Sys B) :
  match upload_all photos s with
  | (inl e, s') => downloads (sys_log s') = downloads (sys_log s)
  | (inr results, s') =>
      downloads (sys_log s')
      = (downloads (sys_log s)
         ++ map r_file_id (filter (λ r, transferred r = true) results))%list
  end.
Proof.
  pose proof (upload_all_effects photos s) as H.
  destruct (upload_all photos s) as [[e|results] s'].
  - by destruct H as [_ H].
  - by destruct H as (_ & H & _).
Qed.

(** X3. With duplicate-skipping off, no result of a run is
    SKIPPED_DUPLICATE and every photo of the list is downloaded, in order,
    whatever the tracker holds. *)
Theorem without_skipping_everything_is_transferred {B : Backend}
    (photos : list Photo) (s s' : Sys B) (results : list UploadResult) :
  skip_duplicates (sys_self s) = false →
  upload_all photos s = (inr results, s') →
  Forall (λ r, r_status r ≠ Some SKIPPED_DUPLICATE) results
  ∧ downloads (sys_log s') = (downloads (sys_log s) ++ map id photos)%list.
Proof.
  intros Hoff Hrun. pose proof (upload_all_effects photos s) as H.
  rewrite Hrun in H. destruct H as (Hids & Hdl & _ & _ & Hall).
  specialize (Hall Hoff). split.
  - eapply Forall_impl; [exact Hall|]. intros r Hr Hst.
    unfold transferred in Hr. by rewrite Hst in Hr.
  - rewrite Hdl, <- Hids. f_equal. f_equal.
    clear -Hall. induction Hall as [|r rs Hr _ IH]; [done|].
    rewrite filter_cons, decide_True by done. by rewrite IH.
Qed.

Lemma without_skipping_everything_is_transferred_witness :
  Forall (λ r, r_status r ≠ Some SKIPPED_DUPLICATE)
         (returned (upload_all [photo1; photo2; photo1]
                      (fresh all_ok false (Some tracker1) 0%nat)).1)
  ∧ downloads (sys_log (upload_all [photo1; photo2; photo1]
                          (fresh all_ok false (Some tracker1) 0%nat)).2)
    = (downloads (sys_log (fresh all_ok false (Some tracker1) 0%nat))
       ++ map id [photo1; photo2; photo1])%list.
Proof.
  apply (without_skipping_everything_is_transferred (B:=all_ok)
           [photo1; photo2; photo1]
           (fresh all_ok false (Some tracker1) 0%nat)).
  - reflexivity.
  - vm_compute. reflexivity.
Defined.

(** X4. A run never removes a key from the tracker, whether it skips
    duplicates or not and whether it returns or raises. *)
Theorem tracker_keys_are_never_removed {B : Backend} (photos : list Photo)
    (s : Sys B) :
  dom (uploaded_photos (sys_self s))
  ⊆ dom (uploaded_photos (sys_self (upload_all photos s).2)).
Proof.
  pose proof (upload_all_effects photos s) as H.
  destruct (upload_all photos s) as [[e|results] s']; simpl.
  - destruct H as [-> _]. done.
  - by destruct H as (_ & _ & Hdom & _).
Qed.

(** X5. Every tracker entry that a run adds or replaces sits under the
    non-empty checksum of a photo of the list and records that photo's id
    and path; all other entries are the ones the run started with. *)
Theorem new_entries_describe_their_photo {B : Backend} (photos : list Photo)
    (s : Sys B) (k : string) (e : TrackerEntry) :
  uploaded_photos (sys_self (upload_all photos s).2) !! k = Some e →
  uploaded_photos (sys_self s) !! k = Some e
  ∨ ∃ photo, photo ∈ photos ∧ photo_md5 photo = PyStr k ∧ k ≠ ""
      ∧ te_file_id e = Some (id photo) ∧ te_path e = path photo.
Proof.
  pose proof (upload_all_effects photos s) as H.
  destruct (upload_all photos s) as [[exn|results] s']; simpl.
  - destruct H as [-> _]. by left.
  - destruct H as (_ & _ & _ & Hnew & _). apply Hnew.
Qed.

Lemma new_entries_describe_their_photo_witness :
  uploaded_photos (sys_self (fresh all_ok true None 0%nat)) !! "abc123"
  = Some (mkEntry (Some "f1") "photo-a.jpg" "My Drive/Photos/a.jpg"
                  "2024-03-05T09:07:30")
  ∨ ∃ photo, photo ∈ [photo1; photo2] ∧ photo_md5 photo = PyStr "abc123"
      ∧ "abc123" ≠ ""
      ∧ te_file_id (mkEntry (Some "f1") "photo-a.jpg" "My Drive/Photos/a.jpg"
                            "2024-03-05T09:07:30") = Some (id photo)
      ∧ te_path (mkEntry (Some "f1") "photo-a.jpg" "My Drive/Photos/a.jpg"
                         "2024-03-05T09:07:30") = path photo.
Proof.
  apply (new_entries_describe_their_photo (B:=all_ok) [photo1; photo2]
           (fresh all_ok true None 0%nat)).
  vm_compute. reflexivity.
Defined.

(** *** One photo, for given answers of the world *)

Section OnePhoto.

Context {B : Backend}.
Variables (photo : Photo) (s : Sys B).
Variables (d : datetime) (w1 w2 w3 w4 : World B).
Variables (file_data : list Byte.byte) (response1 : Response unit).
Variable response2 : Response (list NewMediaItemResult).

Let file_name : string := path_name B (path photo).
Let album_arg : option string :=
  if truthy_opt (album_id (sys_self s)) then album_id (sys_self s) else None.

Hypothesis not_duplicate :
  is_duplicate (sys_self s) (photo_md5 photo) (id photo) = false.
Hypothesis clock : datetime_now B (sys_world s) = (d, w1).

(** X6. When the download of a photo raises, its result is ERROR with the
    text of the exception, nothing is uploaded (the download is the only
    call) and the tracker is left alone. *)
Theorem download_exception_gives_ERROR (e : string) :
  drive_get_media B (id photo) w1 = (inl e, w2) →
  ∃ r s',
    upload_one photo s = (inr tt, s')
    ∧ upload_results (sys_self s') = (upload_results (sys_self s) ++ [r])%list
    ∧ r_status r = Some ERROR ∧ r_success r = Some false
    ∧ r_error r = Some e ∧ r_photos_id r = None
    ∧ uploaded_photos (sys_self s') = uploaded_photos (sys_self s)
    ∧ sys_log s' = (sys_log s ++ [EvDownload (id photo)])%list.
Proof.
  intros Hget. destruct s as [w self log]. simpl in *.
  unfold_upload. simpl.
  rewrite not_duplicate. simpl. rewrite clock. simpl. rewrite Hget. simpl.
  do 2 eexists. split; [reflexivity|]. simpl. repeat split.
Qed.

Hypothesis downloaded : drive_get_media B (id photo) w1 = (inr file_data, w2).
Hypothesis uploaded :
  post_uploads B file_data file_name (mimeType photo) w2 = (inr response1, w3).

(** X7. When the byte upload is answered with a status other than 200,
    the result is FAILED with the text "Upload failed: <status> - <body>",
    no registration is attempted and the tracker is left alone. *)
Theorem upload_rejection_gives_FAILED :
  status_code response1 ≠ 200 →
  ∃ r s',
    upload_one photo s = (inr tt, s')
    ∧ upload_results (sys_self s') = (upload_results (sys_self s) ++ [r])%list
    ∧ r_status r = Some FAILED ∧ r_success r = Some false
    ∧ r_error r = Some ("Upload failed: " +:+ pretty (status_code response1)
                        +:+ " - " +:+ text response1)
    ∧ uploaded_photos (sys_self s') = uploaded_photos (sys_self s)
    ∧ sys_log s'
      = (sys_log s ++ [EvDownload (id photo); EvPostUploads file_name])%list.
Proof.
  intros Hcode. apply Nat.eqb_neq in Hcode.
  subst file_name. destruct s as [w self log]. simpl in *.
  unfold_upload. simpl.
  rewrite not_duplicate. simpl. rewrite clock. simpl.
  rewrite downloaded. simpl. rewrite uploaded. simpl. rewrite Hcode. simpl.
  do 2 eexists. split; [reflexivity|]. simpl.
  rewrite <- !app_assoc. repeat split.
Qed.

Hypothesis upload_ok : status_code response1 = 200.
Hypothesis registered :
  post_batchCreate B (text response1) file_name album_arg w3
  = (inr response2, w4).
Hypothesis register_ok : status_code response2 = 200.

(** X8. When the registration is answered with HTTP 200 but its first
    item does not carry the message "Success", or there is no item at
    all, the result is FAILED (with the printed status of the item, or
    "Unknown error") and the tracker is left alone. *)
Theorem rejected_item_gives_FAILED (items : list NewMediaItemResult) :
  json response2 = inr items →
  (head items ≫= nmi_status) ≫= message ≠ Some "Success" →
  ∃ r s',
    upload_one photo s = (inr tt, s')
    ∧ upload_results (sys_self s') = (upload_results (sys_self s) ++ [r])%list
    ∧ r_status r = Some FAILED ∧ r_success r = Some false
    ∧ r_error r
      = Some (match items with
              | [] => "Unknown error"
              | item :: _ => match nmi_status item with
                             | Some st => status_str st
                             | None => "{}"
                             end
              end)
    ∧ uploaded_photos (sys_self s') = uploaded_photos (sys_self s)
    ∧ sys_log s'
      = (sys_log s ++ [ EvDownload (id photo); EvPostUploads file_name;
                        EvBatchCreate file_name ])%list.
Proof.
  intros Hjson Hmsg. subst file_name album_arg.
  destruct s as [w self log]. simpl in *.
  unfold_upload. simpl.
  rewrite not_duplicate. simpl. rewrite clock. simpl.
  rewrite downloaded. simpl. rewrite uploaded. simpl.
  rewrite upload_ok. simpl. rewrite registered. simpl.
  rewrite register_ok. simpl. rewrite Hjson. simpl.
  destruct items as [|item rest]; simpl in *.
  - do 2 eexists. split; [reflexivity|]. simpl.
    rewrite <- !app_assoc. repeat split.
  - rewrite bool_decide_eq_false_2 by done. simpl.
    do 2 eexists. split; [reflexivity|]. simpl.
    rewrite <- !app_assoc. repeat split.
Qed.

Variables (item : NewMediaItemResult) (rest : list NewMediaItemResult).
Hypothesis decoded : json response2 = inr (item :: rest).
Hypothesis accepted : nmi_status item ≫= message = Some "Success".

(** X9. A registered photo without a usable checksum (no key, a null, or
    the empty string) gets SUCCESS with the id of the new media item, but
    the tracker map is unchanged and its file is not written: such a
    photo is never tracked. *)
Theorem success_without_checksum_is_not_tracked :
  truthy (photo_md5 photo) = false →
  ∃ r s',
    upload_one photo s = (inr tt, s')
    ∧ upload_results (sys_self s') = (upload_results (sys_self s) ++ [r])%list
    ∧ r_status r = Some SUCCESS ∧ r_success r = Some true
    ∧ r_photos_id r = Some (default "" (nmi_mediaItem_id item))
    ∧ uploaded_photos (sys_self s') = uploaded_photos (sys_self s)
    ∧ sys_log s'
      = (sys_log s ++ [ EvDownload (id photo); EvPostUploads file_name;
                        EvBatchCreate file_name ])%list.
Proof.
  intros Hfalsy. subst file_name album_arg.
  destruct s as [w self log]. simpl in *.
  unfold_upload. simpl.
  rewrite not_duplicate. simpl. rewrite clock. simpl.
  rewrite downloaded. simpl. rewrite uploaded. simpl.
  rewrite upload_ok. simpl. rewrite registered. simpl.
  rewrite register_ok. simpl. rewrite decoded. simpl.
  rewrite bool_decide_eq_true_2 by done. simpl.
  destruct (photo_md5 photo) as [|key]; simpl in *.
  - do 2 eexists. split; [reflexivity|]. simpl.
    rewrite <- !app_assoc. repeat split.
  - rewrite Hfalsy. simpl.
    do 2 eexists. split; [reflexivity|]. simpl.
    rewrite <- !app_assoc. repeat split.
Qed.

Variables (key : string) (d2 : datetime) (w5 w6 : World B).
Variable save_outcome : option string.

Let entry : TrackerEntry :=
  mkEntry (Some (id photo)) (default "" (nmi_mediaItem_id item)) (path photo)
          (isoformat d2).

Hypothesis checksum : photo_md5 photo = PyStr key.
Hypothesis checksum_nonempty : key ≠ "".
Hypothesis clock2 : datetime_now B w4 = (d2, w5).
Hypothesis saved :
  json_dump_tracker B (<[key := entry]> (uploaded_photos (sys_self s))) w5
  = (save_outcome, w6).

(** X10. A registered photo with a non-empty checksum is put in the
    tracker map under that checksum, with its file id, the id of the new
    media item, its path and the time, and the whole map is then written
    to the tracker file.  If the write succeeds the result is SUCCESS; if
    it raises, the result is ERROR with the text of the exception and
    [success] false, although the media item exists, the result keeps its
    id and the map keeps the entry. *)
Theorem registered_photo_is_tracked :
  ∃ r s',
    upload_one photo s = (inr tt, s')
    ∧ upload_results (sys_self s') = (upload_results (sys_self s) ++ [r])%list
    ∧ r_status r = Some (if save_outcome is Some _ then ERROR else SUCCESS)
    ∧ r_success r = Some (if save_outcome is Some _ then false else true)
    ∧ r_error r = save_outcome
    ∧ r_photos_id r = Some (default "" (nmi_mediaItem_id item))
    ∧ uploaded_photos (sys_self s')
      = <[key := entry]> (uploaded_photos (sys_self s))
    ∧ sys_log s'
      = (sys_log s ++ [ EvDownload (id photo); EvPostUploads file_name;
                        EvBatchCreate file_name;
                        EvSaveTracker (uploaded_photos (sys_self s')) ])%list.
Proof.
  subst file_name album_arg entry.
  destruct s as [w self log]. simpl in *.
  unfold_upload. simpl.
  rewrite not_duplicate. simpl. rewrite clock. simpl.
  rewrite downloaded. simpl. rewrite uploaded. simpl.
  rewrite upload_ok. simpl. rewrite registered. simpl.
  rewrite register_ok. simpl. rewrite decoded. simpl.
  rewrite bool_decide_eq_true_2 by done. simpl.
  rewrite checksum. simpl.
  rewrite bool_decide_eq_false_2 by done. simpl.
  rewrite clock2. simpl. rewrite saved. simpl.
  destruct save_outcome as [e|]; simpl.
  - do 2 eexists. split; [reflexivity|]. simpl.
    rewrite <- !app_assoc. repeat split.
  - do 2 eexists. split; [reflexivity|]. simpl.
    rewrite <- !app_assoc. repeat split.
Qed.

End OnePhoto.

Lemma download_exception_gives_ERROR_witness :
  ∃ r s',
    upload_one photo1 (started script_download_raises true no_tracker) = (inr tt, s')
    ∧ upload_results (sys_self s') = ([] ++ [r])%list
    ∧ r_status r = Some ERROR ∧ r_success r = Some false
    ∧ r_error r = Some "HttpError 404" ∧ r_photos_id r = None
    ∧ uploaded_photos (sys_self s') = ∅
    ∧ sys_log s' = ([] ++ [EvDownload "f1"])%list.
Proof.
  apply (download_exception_gives_ERROR
           (B:=backend_of script_download_raises) photo1
           (started script_download_raises true no_tracker)
           (mkDatetime 2024 3 5 9 7 30 0) 0%nat 0%nat).
  - vm_compute. reflexivity.
  - reflexivity.
  - reflexivity.
Defined.

Lemma upload_rejection_gives_FAILED_witness :
  ∃ r s',
    upload_one photo1 (started script_uploads_503 true no_tracker) = (inr tt, s')
    ∧ upload_results (sys_self s') = ([] ++ [r])%list
    ∧ r_status r = Some FAILED ∧ r_success r = Some false
    ∧ r_error r = Some ("Upload failed: " +:+ pretty 503 +:+ " - "
                        +:+ "token-a.jpg")
    ∧ uploaded_photos (sys_self s') = ∅
    ∧ sys_log s' = ([] ++ [EvDownload "f1"; EvPostUploads "a.jpg"])%list.
Proof.
  apply (upload_rejection_gives_FAILED
           (B:=backend_of script_uploads_503) photo1
           (started script_uploads_503 true no_tracker)
           (mkDatetime 2024 3 5 9 7 30 0) 0%nat 0%nat 0%nat []
           (mkResponse 503 "token-a.jpg" (inl "not JSON"))).
  - vm_compute. reflexivity.
  - reflexivity.
  - reflexivity.
  - reflexivity.
  - vm_compute. discriminate.
Defined.

Lemma rejected_item_gives_FAILED_witness :
  ∃ r s',
    upload_one photo1 (started script_rejected true no_tracker) = (inr tt, s')
    ∧ upload_results (sys_self s') = ([] ++ [r])%list
    ∧ r_status r = Some FAILED ∧ r_success r = Some false
    ∧ r_error r = Some "{'message': 'Failed'}"
    ∧ uploaded_photos (sys_self s') = ∅
    ∧ sys_log s' = ([] ++ [ EvDownload "f1"; EvPostUploads "a.jpg";
                            EvBatchCreate "a.jpg" ])%list.
Proof.
  apply (rejected_item_gives_FAILED
           (B:=backend_of script_rejected) photo1
           (started script_rejected true no_tracker)
           (mkDatetime 2024 3 5 9 7 30 0) 0%nat 0%nat 0%nat 0%nat []
           (mkResponse 200 "token-a.jpg" (inl "not JSON"))
           (mkResponse 200 "{}" (inr [item_rejected]))
           ltac:(vm_compute; reflexivity) eq_refl eq_refl eq_refl eq_refl
           eq_refl eq_refl [item_rejected]).
  - reflexivity.
  - vm_compute. discriminate.
Defined.

Lemma success_without_checksum_is_not_tracked_witness :
  ∃ r s',
    upload_one photo_null_md5 (started script_ok true no_tracker) = (inr tt, s')
    ∧ upload_results (sys_self s') = ([] ++ [r])%list
    ∧ r_status r = Some SUCCESS ∧ r_success r = Some true
    ∧ r_photos_id r = Some "media-1"
    ∧ uploaded_photos (sys_self s') = ∅
    ∧ sys_log s' = ([] ++ [ EvDownload "f8"; EvPostUploads "m.jpg";
                            EvBatchCreate "m.jpg" ])%list.
Proof.
  apply (success_without_checksum_is_not_tracked
           (B:=backend_of script_ok) photo_null_md5
           (started script_ok true no_tracker)
           (mkDatetime 2024 3 5 9 7 30 0) 0%nat 0%nat 0%nat 0%nat []
           (mkResponse 200 "token-m.jpg" (inl "not JSON"))
           (mkResponse 200 "{}" (inr [item_ok]))
           ltac:(vm_compute; reflexivity) eq_refl eq_refl eq_refl eq_refl
           eq_refl eq_refl item_ok []).
  - reflexivity.
  - reflexivity.
  - reflexivity.
Defined.

Lemma registered_photo_is_tracked_witness :
  ∃ r s',
    upload_one photo1 (started script_save_raises true no_tracker) = (inr tt, s')
    ∧ upload_results (sys_self s') = ([] ++ [r])%list
    ∧ r_status r = Some ERROR
    ∧ r_success r = Some false
    ∧ r_error r = Some "disk full"
    ∧ r_photos_id r = Some "media-1"
    ∧ uploaded_photos (sys_self s')
      = <["abc123" := mkEntry (Some "f1") "media-1" "My Drive/Photos/a.jpg"
                              "2024-03-05T09:07:30"]> ∅
    ∧ sys_log s'
      = ([] ++ [ EvDownload "f1"; EvPostUploads "a.jpg"; EvBatchCreate "a.jpg";
                 EvSaveTracker (uploaded_photos (sys_self s')) ])%list.
Proof.
  apply (registered_photo_is_tracked
           (B:=backend_of script_save_raises) photo1
           (started script_save_raises true no_tracker)
           (mkDatetime 2024 3 5 9 7 30 0) 0%nat 0%nat 0%nat 0%nat []
           (mkResponse 200 "token-a.jpg" (inl "not JSON"))
           (mkResponse 200 "{}" (inr [item_ok]))
           ltac:(vm_compute; reflexivity) eq_refl eq_refl eq_refl eq_refl
           eq_refl eq_refl item_ok [] eq_refl eq_refl
           "abc123" (mkDatetime 2024 3 5 9 7 30 0) 0%nat 0%nat
           (Some "disk full")).
  - reflexivity.
  - discriminate.
  - reflexivity.
  - reflexivity.
Defined.

(** *** Duplicates inside one run *)

Lemma upload_loop_skips_repeated_checksum {B : Backend} (photos : list Photo) :
  ∀ (s s' : Sys B) (rs : list UploadResult),
    skip_duplicates (sys_self s) = true →
    upload_loop photos s = (inr tt, s') →
    upload_results (sys_self s') = (upload_results (sys_self s) ++ rs)%list →
    ∀ (i j : nat) (p q : Photo) (r_p : UploadResult),
      i < j → photos !! i = Some p → photos !! j = Some q →
      photo_md5 p = photo_md5 q → truthy (photo_md5 p) = true →
      rs !! i = Some r_p → r_status r_p = Some SUCCESS →
      ∃ r_q, rs !! j = Some r_q ∧ r_status r_q = Some SKIPPED_DUPLICATE.
Proof.
  induction photos as [|photo photos IH];
    intros s s' rs Hon Hrun Hres i j p q r_p Hij Hp Hq Hmd5 Htruthy Hrp Hst.
  { by rewrite lookup_nil in Hp. }
  destruct (upload_one_spec photo s)
    as (r & s1 & evs1 & Hrun1 & Hres1 & _ & _ & Hsk1 & _ & _ & _ & _ & _ & _
        & _ & Hsucc).
  destruct (upload_loop_spec photos s1)
    as (rs1 & s1' & evs & Hloop & Hres' & _ & _ & _ & _ & _ & _ & Hskip).
  simpl in Hrun. unfold mbind, M_bind, bind in Hrun.
  rewrite Hrun1, Hloop in Hrun. injection Hrun as <-.
  rewrite Hres', Hres1, <- app_assoc in Hres.
  apply app_inv_head in Hres. simpl in Hres. subst rs.
  assert (skip_duplicates (sys_self s1) = true) as Hon1 by congruence.
  destruct j as [|j]; [lia|]. simpl in Hq.
  destruct i as [|i]; simpl in Hp, Hrp.
  - injection Hp as ->. injection Hrp as ->.
    destruct (Hskip Hon1) as (_ & Hpre & _).
    destruct (Forall2_lookup_l _ _ _ _ _ Hpre Hq) as (r_q & Hrq & Himp).
    exists r_q. split; [done|]. apply Himp.
    apply truthy_PyStr in Htruthy as (key & Hkey & Hne).
    apply is_duplicate_true. split; [done|]. left. exists key.
    split; [congruence|]. split; [done|]. by apply Hsucc.
  - apply (IH s1 s1' rs1 Hon1 Hloop Hres' i j p q r_p); try done. lia.
Qed.

(** X11. In a run that skips duplicates, once a photo with a non-empty
    checksum has been uploaded with SUCCESS, every later photo of the list
    with the same checksum gets SKIPPED_DUPLICATE, whatever its id and
    path and whatever the world answers. *)
Theorem repeated_checksum_is_skipped_in_same_run {B : Backend}
    (photos : list Photo) (s s' : Sys B) (results : list UploadResult)
    (i j : nat) (p q : Photo) (r_p : UploadResult) :
  skip_duplicates (sys_self s) = true →
  upload_all photos s = (inr results, s') →
  i < j → photos !! i = Some p → photos !! j = Some q →
  photo_md5 p = photo_md5 q → truthy (photo_md5 p) = true →
  results !! i = Some r_p → r_status r_p = Some SUCCESS →
  ∃ r_q, results !! j = Some r_q ∧ r_status r_q = Some SKIPPED_DUPLICATE.
Proof.
  intros Hon Hrun. pose proof (upload_all_spec photos s) as Hall.
  destruct (create_album_spec s)
    as (res & s1 & Hca & _ & _ & _ & Hsk1 & _).
  rewrite Hca in Hall. destruct res as [e|a].
  { rewrite Hall in Hrun. discriminate. }
  destruct Hall as (results' & s2 & evs & Heq & Hloop & Hres & _).
  rewrite Heq in Hrun. injection Hrun as -> ->.
  assert (skip_duplicates
            (sys_self (mkSys (sys_world s1)
                         (set_upload_results [] (sys_self s1)) (sys_log s1)))
          = true) as Hon2 by (simpl; congruence).
  apply (upload_loop_skips_repeated_checksum photos _ s' results Hon2 Hloop).
  simpl. done.
Qed.

Lemma repeated_checksum_is_skipped_in_same_run_witness :
  ∃ r_q, returned (upload_all [photo1; photo1_edited; photo2]
                     (fresh all_ok true None 0%nat)).1 !! 2%nat = Some r_q
         ∧ r_status r_q = Some SKIPPED_DUPLICATE.
Proof.
  apply (repeated_checksum_is_skipped_in_same_run (B:=all_ok)
           [photo1; photo1_edited; photo2] (fresh all_ok true None 0%nat)
           (upload_all [photo1; photo1_edited; photo2]
              (fresh all_ok true None 0%nat)).2
           _ 0%nat 2%nat photo1 photo2
           (mkResult "My Drive/Photos/a.jpg" "f1" "2024-03-05T09:07:30"
              (PyStr "abc123") (Some true) (Some SUCCESS)
              (Some "photo-a.jpg") None)).
  - reflexivity.
  - vm_compute. reflexivity.
  - lia.
  - reflexivity.
  - reflexivity.
  - reflexivity.
  - reflexivity.
  - vm_compute. reflexivity.
  - reflexivity.
Defined.

End UploadExtra.

(* ===================================================================== *)
(** ** Further properties of the scanner                                 *)
(* ===================================================================== *)

Module ScanExtra.
Import Drive Tree Fixtures ScanProps.

Lemma fold_list_step_photos (current_path : string) (items : list DriveItem) :
  ∀ acc,
    photos_found (acc_scanner (fold_left (list_step current_path) items acc))
    = (photos_found (acc_scanner acc)
       ++ map (λ pf : string * DriveItem, photo_data_of pf.1 pf.2)
            (filter (λ pf : string * DriveItem,
                       is_photo (item_mimeType pf.2) = true)
               (map (λ it, (current_path, it))
                  (filter (λ it, is_folder it = false) items))))%list.
Proof.
  induction items as [|it items IH]; intros acc; simpl.
  - by rewrite app_nil_r.
  - rewrite IH. unfold list_step. rewrite filter_cons.
    destruct (is_folder it) eqn:Hfold; simpl; [done|].
    rewrite filter_cons. simpl.
    destruct (is_photo (item_mimeType it)) eqn:Hphoto; simpl; [|done].
    by rewrite <- app_assoc.
Qed.

(** What a scan adds to [photos_found]: one entry for every file below
    the scanned folder whose MIME type is a photo type, in scan order. *)
Lemma scan_folder_photos_found (name_of : string → option string)
    (folder : DriveItem) :
  ∀ (current_path : string) (sc : DriveScanner),
    photos_found (scan_folder name_of folder current_path sc).2
    = (photos_found sc
       ++ photos_below (scan_path name_of folder current_path) folder)%list.
Proof.
  induction folder as [folder IH] using DriveItem_nested_ind.
  intros current_path sc.
  destruct folder as [fid nm mime sz ct mt md5 meta ch].
  unfold scan_path, photos_below. simpl in *.
  set (cp := if bool_decide (current_path = "")
             then get_folder_name name_of fid else current_path).
  rewrite filter_app, map_app, app_assoc.
  unfold list_loop.
  pose proof (fold_list_step_photos cp ch (mkAcc 0 0 [] sc)) as Hown.
  simpl in Hown. rewrite <- Hown. clear Hown.
  generalize (acc_scanner (fold_left (list_step cp) ch (mkAcc 0 0 [] sc))).
  induction IH as [|it rest Hit _ IHrest]; intros sc0; simpl.
  - by rewrite app_nil_r.
  - destruct (is_folder it) eqn:Hfold; [|apply IHrest].
    specialize (Hit (full_path cp it) sc0).
    rewrite scan_path_full_path in Hit. unfold photos_below in Hit.
    destruct (scan_folder name_of it (full_path cp it) sc0)
      as [[sub_files sub_folders] sc'].
    simpl in Hit. rewrite IHrest.
    rewrite filter_app, map_app, app_assoc. f_equal.
    by destruct (_ && _).
Qed.

Lemma scan_folder_snd (name_of : string → option string)
    (folder : DriveItem) (current_path : string) (sc : DriveScanner) :
  (scan_folder name_of folder current_path sc).2
  = {| photos_found :=
         (photos_found sc
          ++ photos_below (scan_path name_of folder current_path) folder)%list;
       empty_folders :=
         (empty_folders sc
          ++ map fst (filter (λ pf : string * DriveItem, is_leaf pf.2 = true)
                        (folders_below
                           (scan_path name_of folder current_path)
                           folder)))%list |}.
Proof.
  rewrite <- scan_folder_photos_found, <- scan_folder_empty_folders.
  by destruct (scan_folder name_of folder current_path sc).2.
Qed.

(** Every file a scan comes across is listed by the scanned folder or by
    a folder whose path extends the scan path with a [/]. *)
Lemma files_below_paths (folder : DriveItem) :
  ∀ (current_path p : string) (it : DriveItem),
    (p, it) ∈ files_below current_path folder →
    p = current_path ∨ starts_with (current_path +:+ "/") p.
Proof.
  induction folder as [folder IH] using DriveItem_nested_ind.
  intros current_path p it.
  destruct folder as [fid nm mime sz ct mt md5 meta ch]. simpl in *.
  rewrite elem_of_app. intros [Hin | Hin].
  - apply list_elem_of_fmap in Hin as (x & [= -> ->] & _). by left.
  - right. induction IH as [|c rest Hc _ IHrest]; simpl in Hin.
    + by apply elem_of_nil in Hin.
    + destruct (is_folder c); [|by apply IHrest].
      apply elem_of_app in Hin as [Hin | Hin]; [|by apply IHrest].
      destruct (Hc _ _ _ Hin) as [-> | (suffix & ->)].
      * exists (item_name c). unfold full_path.
        by rewrite string_append_assoc.
      * exists (item_name c +:+ "/" +:+ suffix). unfold full_path.
        by rewrite !string_append_assoc.
Qed.

(** X12. A scan returns one photo record for every file in or below the
    root whose MIME type is on the photo list, and nothing else: no record
    for other files, none for folders.  The records come in scan order, the
    files of a folder before those of its subfolders. *)
Theorem scan_finds_the_photo_files (name_of : string → option string)
    (root : DriveItem) (sc : DriveScanner) :
  (scan name_of root sc).1
  = photos_below (get_folder_name name_of (item_id root)) root.
Proof. unfold scan. simpl. by rewrite scan_folder_snd. Qed.

(** X13. Every photo record of a scan has a MIME type of the photo list,
    and its path is the path of a folder at or below the scan root,
    followed by [/] and the name of the file. *)
Theorem scanned_photos_are_well_formed (name_of : string → option string)
    (root : DriveItem) (sc : DriveScanner) :
  Forall (λ pd,
            pd_mimeType pd ∈ PHOTO_MIME_TYPES
            ∧ ∃ parent,
                pd_path pd = parent +:+ "/" +:+ pd_name pd
                ∧ (parent = get_folder_name name_of (item_id root)
                   ∨ starts_with
                       (get_folder_name name_of (item_id root) +:+ "/")
                       parent))
         (scan name_of root sc).1.
Proof.
  unfold scan. simpl. rewrite scan_folder_snd. simpl.
  apply Forall_forall. intros pd Hin. unfold photos_below in Hin.
  apply list_elem_of_fmap in Hin as ([p it] & -> & Hin).
  apply list_elem_of_filter in Hin as [Hphoto Hin]. simpl in *.
  split.
  - unfold is_photo in Hphoto. by apply bool_decide_eq_true in Hphoto.
  - exists p. split; [reflexivity|]. by eapply files_below_paths.
Qed.

(** X14. The empty-folder list of a scan holds the paths of the folders
    strictly below the root whose own listing is empty, in the order the
    scan leaves them, and no other path: a folder that lists anything, be
    it only empty folders, is not in it. *)
Theorem scan_lists_folders_with_empty_listing
    (name_of : string → option string) (root : DriveItem)
    (sc : DriveScanner) :
  (scan name_of root sc).2
  = map fst (filter (λ pf : string * DriveItem, is_leaf pf.2 = true)
               (folders_below (get_folder_name name_of (item_id root)) root)).
Proof. unfold scan. simpl. by rewrite scan_folder_snd. Qed.

(** X15. The path a scan starts from is never in its empty-folder list:
    every path of the list extends it with a [/]. *)
Theorem scan_never_lists_its_root (name_of : string → option string)
    (root : DriveItem) (sc : DriveScanner) :
  Forall (starts_with (get_folder_name name_of (item_id root) +:+ "/"))
         (scan name_of root sc).2
  ∧ get_folder_name name_of (item_id root) ∉ (scan name_of root sc).2.
Proof.
  unfold scan. simpl. rewrite scan_folder_snd. simpl.
  assert (Hall : Forall
            (starts_with (get_folder_name name_of (item_id root) +:+ "/"))
            (map fst (filter (λ pf : string * DriveItem, is_leaf pf.2 = true)
                        (folders_below
                           (get_folder_name name_of (item_id root)) root)))).
  { apply Forall_forall. intros p Hin.
    apply list_elem_of_fmap in Hin as ([p' it] & -> & Hin).
    apply list_elem_of_filter in Hin as [_ Hin].
    destruct (folders_below_paths _ _ _ _ Hin) as (suffix & Heq).
    exists suffix. simpl. by rewrite string_append_assoc. }
  split; [exact Hall|].
  intros Hin. rewrite Forall_forall in Hall.
  destruct (Hall _ Hin) as (suffix & Heq).
  rewrite string_append_assoc in Heq. by apply append_slash_longer in Heq.
Qed.

(** X16. Scanning several paths gives, for both lists, the results of the
    single paths one after the other in the order given: a path that did
    not resolve adds nothing, and nothing is merged, so a folder reached
    through two of the paths is reported twice. *)
Theorem scan_paths_concatenates (name_of : string → option string)
    (folder_paths : list (string * option DriveItem)) (sc : DriveScanner) :
  scan_paths name_of folder_paths sc
  = (concat (map (photos_of_path name_of) folder_paths),
     concat (map (empties_of_path name_of) folder_paths)).
Proof.
  unfold scan_paths.
  assert (Hgen : ∀ sc0,
    fold_left (λ sc '(folder_path, resolved),
                 match resolved with
                 | Some folder => snd (scan_folder name_of folder folder_path sc)
                 | None => sc
                 end) folder_paths sc0
    = {| photos_found :=
           (photos_found sc0
            ++ concat (map (photos_of_path name_of) folder_paths))%list;
         empty_folders :=
           (empty_folders sc0
            ++ concat (map (empties_of_path name_of) folder_paths))%list |}).
  { induction folder_paths as [|[path resolved] rest IH]; intros sc0; simpl.
    - rewrite !app_nil_r. by destruct sc0.
    - rewrite IH. unfold photos_of_path at 2, empties_of_path at 2. simpl.
      destruct resolved as [folder|]; simpl.
      + change (snd ?x) with (x.2). rewrite scan_folder_snd. simpl.
        by rewrite <- !app_assoc.
      + done. }
  rewrite Hgen. reflexivity.
Qed.

End ScanExtra.

(* ===================================================================== *)
(** ** Properties of the string operations                               *)
(* ===================================================================== *)

Module TextProps.
Import Text ScanProps.

Lemma string_append_nil_r (s : string) : s +:+ "" = s.
Proof. induction s as [|c s IH]; [done|]. by rewrite string_append_cons, IH. Qed.

Lemma has_char_app (P : ascii → bool) (a b : string) :
  has_char P (a +:+ b) = has_char P a || has_char P b.
Proof.
  induction a as [|c a IH]; [done|].
  rewrite string_append_cons. simpl. by rewrite IH, orb_assoc.
Qed.

Lemma rstrip_no_char (P : ascii → bool) (s : string) :
  has_char P s = false → rstrip P s = s.
Proof.
  induction s as [|c s IH]; [done|]. simpl.
  intros [Hc Hs]%orb_false_iff. rewrite (IH Hs), Hc. by destruct s.
Qed.

Lemma rstrip_app (P : ascii → bool) (a b : string) :
  rstrip P b ≠ "" → rstrip P (a +:+ b) = a +:+ rstrip P b.
Proof.
  intros Hb. induction a as [|c a IH]; [done|].
  rewrite !string_append_cons. simpl. rewrite IH.
  destruct (a +:+ rstrip P b) eqn:Heq; [|done].
  destruct a; [|discriminate]. simpl in Heq. done.
Qed.

Lemma rstrip_snoc (P : ascii → bool) (q : string) (c : ascii) :
  P c = true → rstrip P (q +:+ String c "") = rstrip P q.
Proof.
  intros Hc. induction q as [|x q IH].
  - simpl. by rewrite Hc.
  - rewrite string_append_cons. simpl. by rewrite IH.
Qed.

Lemma lstrip_snoc (P : ascii → bool) (q : string) (c : ascii) :
  P c = true →
  lstrip P (q +:+ String c "")
  = match lstrip P q with
    | EmptyString => EmptyString
    | String x kept => String x kept +:+ String c ""
    end.
Proof.
  intros Hc. induction q as [|x q IH].
  - simpl. by rewrite Hc.
  - rewrite string_append_cons. simpl. destruct (P x); [exact IH|done].
Qed.

Lemma rstrip_idem (P : ascii → bool) (s : string) :
  rstrip P (rstrip P s) = rstrip P s.
Proof.
  induction s as [|c s IH]; [done|]. simpl.
  destruct (rstrip P s) as [|x kept] eqn:Hs.
  - destruct (P c) eqn:Hc; [done|]. simpl. by rewrite Hc.
  - simpl. simpl in IH. rewrite IH. done.
Qed.

Lemma rstrip_head (P : ascii → bool) (s : string) (x : ascii) (kept : string) :
  rstrip P s = String x kept → ∃ rest, s = String x rest.
Proof.
  destruct s as [|c s]; [done|]. simpl.
  destruct (rstrip P s); [destruct (P c)|]; intros [= <- <-]; eauto.
Qed.

Lemma lstrip_head (P : ascii → bool) (s : string) (x : ascii) (kept : string) :
  lstrip P s = String x kept → P x = false.
Proof.
  induction s as [|c s IH]; [done|]. simpl.
  destruct (P c) eqn:Hc; [exact IH|]. by intros [= <- <-].
Qed.

Lemma strip_idem (P : ascii → bool) (s : string) :
  strip P (strip P s) = strip P s.
Proof.
  unfold strip. destruct (rstrip P (lstrip P s)) as [|x kept] eqn:Hr; [done|].
  destruct (rstrip_head _ _ _ _ Hr) as (rest & Hl).
  apply lstrip_head in Hl. rewrite <- Hr at 2.
  simpl. rewrite Hl. rewrite <- Hr. apply rstrip_idem.
Qed.

Lemma has_char_lstrip (P Q : ascii → bool) (s : string) :
  has_char Q s = false → has_char Q (lstrip P s) = false.
Proof.
  induction s as [|c s IH]; [done|]. simpl.
  intros [Hc Hs]%orb_false_iff. destruct (P c); [by apply IH|].
  simpl. by rewrite Hc, Hs.
Qed.

Lemma has_char_rstrip (P Q : ascii → bool) (s : string) :
  has_char Q s = false → has_char Q (rstrip P s) = false.
Proof.
  induction s as [|c s IH]; [done|]. simpl.
  intros [Hc Hs]%orb_false_iff. specialize (IH Hs).
  destruct (rstrip P s); [destruct (P c); simpl; by rewrite ?Hc|].
  simpl. simpl in IH. by rewrite Hc, IH.
Qed.

Lemma split_on_no_char (c : ascii) (s : string) :
  has_char (is_char c) s = false → split_on c s = [s].
Proof.
  induction s as [|x s IH]; [done|]. simpl. unfold is_char at 1.
  intros [Hx Hs]%orb_false_iff. rewrite Hx, (IH Hs). done.
Qed.

Lemma split_on_app (c : ascii) (a b : string) :
  has_char (is_char c) a = false →
  split_on c (a +:+ String c b) = a :: split_on c b.
Proof.
  induction a as [|x a IH].
  - intros _. simpl. by rewrite bool_decide_eq_true_2.
  - intros Hyp. simpl in Hyp. unfold is_char at 1 in Hyp.
    apply orb_false_iff in Hyp as [Hx Ha].
    rewrite string_append_cons. simpl. rewrite Hx, (IH Ha). done.
Qed.

Lemma split_on_pieces (c : ascii) (s : string) :
  Forall (λ p, has_char (is_char c) p = false) (split_on c s).
Proof.
  induction s as [|x s IH]; simpl; [by repeat constructor|].
  destruct (bool_decide (x = c)) eqn:Hx; [by constructor|].
  destruct (split_on c s) as [|piece pieces].
  - repeat constructor. simpl. unfold is_char. by rewrite Hx.
  - inversion IH; subst. constructor; [|done].
    simpl. unfold is_char at 1. by rewrite Hx.
Qed.

Lemma split_on_concat (c : ascii) (segs : list string) :
  Forall (λ p, has_char (is_char c) p = false) segs → segs ≠ [] →
  split_on c (String.concat (String c "") segs) = segs.
Proof.
  induction 1 as [|seg segs Hseg Hsegs IH]; [done|]. intros _.
  destruct segs as [|seg2 segs]; simpl.
  - by apply split_on_no_char.
  - change (String c "" +:+ ?x) with (String c x).
    rewrite split_on_app by done. f_equal. by apply IH.
Qed.

Lemma strip_snoc (P : ascii → bool) (q : string) (c : ascii) :
  P c = true → strip P (q +:+ String c "") = strip P q.
Proof.
  intros Hc. unfold strip. rewrite lstrip_snoc by done.
  destruct (lstrip P q) as [|x kept]; [done|]. by apply rstrip_snoc.
Qed.

Lemma lstrip_no_char_prefix (P : ascii → bool) (a b : string) (c : ascii) :
  has_char P a = false → P c = false →
  lstrip P (a +:+ String c b) = a +:+ String c b.
Proof.
  intros Ha Hc. destruct a as [|x a].
  - simpl. by rewrite Hc.
  - simpl in Ha. apply orb_false_iff in Ha as [Hx _].
    rewrite string_append_cons. simpl. by rewrite Hx.
Qed.

(** A string that starts with a character outside [P] keeps that
    character under [strip]. *)
Lemma strip_keeps_head (P : ascii → bool) (c : ascii) (rest : string) :
  P c = false → ∃ kept, strip P (String c rest) = String c kept.
Proof.
  intros Hc. unfold strip. simpl. rewrite Hc. simpl.
  destruct (rstrip P rest); [rewrite Hc|]; eauto.
Qed.

Lemma rstrip_cons_kept (P : ascii → bool) (c : ascii) (t : string) :
  rstrip P t = t → t ≠ "" → rstrip P (String c t) = String c t.
Proof. intros Ht Hne. simpl. rewrite Ht. by destruct t. Qed.

Lemma nonempty_true (s : string) : nonempty s = true ↔ s ≠ "".
Proof. destruct s; simpl; split; try done. Qed.

End TextProps.

(* ===================================================================== *)
(** ** Properties of path resolution and of the paths option             *)
(* ===================================================================== *)

Module PathsProps.
Import Text Paths Samples ScanProps TextProps.

Lemma concat_cons2 (sep x y : string) (l : list string) :
  String.concat sep (x :: y :: l) = x +:+ sep +:+ String.concat sep (y :: l).
Proof. reflexivity. Qed.

Lemma segment_head (seg : string) :
  is_segment seg → ∃ x rest, seg = String x rest ∧ is_char "/" x = false.
Proof.
  intros [Hne Hno]. destruct seg as [|x rest]; [done|].
  simpl in Hno. apply orb_false_iff in Hno as [Hx _]. eauto.
Qed.

Lemma rstrip_segments (segs : list string) :
  Forall is_segment segs → segs ≠ [] →
  rstrip (is_char "/") (String.concat "/" segs) = String.concat "/" segs
  ∧ String.concat "/" segs ≠ "".
Proof.
  induction 1 as [|seg segs Hseg Hsegs IH]; [done|]. intros _.
  destruct (segment_head seg Hseg) as (x & rest & -> & Hx).
  destruct segs as [|seg2 segs].
  - simpl String.concat. split; [|done].
    apply rstrip_no_char. by destruct Hseg.
  - rewrite concat_cons2. destruct IH as [IH Hne]; [done|].
    split; [|by rewrite string_append_cons].
    assert (rstrip (is_char "/") ("/" +:+ String.concat "/" (seg2 :: segs))
            = "/" +:+ String.concat "/" (seg2 :: segs)) as Htail.
    { change ("/" +:+ ?t) with (String "/" t). by apply rstrip_cons_kept. }
    rewrite rstrip_app; rewrite Htail; [done|].
    change ("/" +:+ ?t) with (String "/" t). done.
Qed.

Lemma strip_segments (segs : list string) :
  Forall is_segment segs →
  strip (is_char "/") (String.concat "/" segs) = String.concat "/" segs.
Proof.
  intros Hsegs. destruct segs as [|seg segs]; [done|].
  unfold strip.
  assert (lstrip (is_char "/") (String.concat "/" (seg :: segs))
          = String.concat "/" (seg :: segs)) as ->.
  { inversion Hsegs as [|? ? Hseg _]; subst.
    destruct (segment_head seg Hseg) as (x & rest & -> & Hx).
    destruct segs; [simpl; by rewrite Hx|].
    rewrite concat_cons2, string_append_cons. simpl. by rewrite Hx. }
  by apply rstrip_segments.
Qed.

(** X17. For a path made of non-empty segments without [/], joined by
    [/], [resolve_folder_path] looks the segments up one after the other
    from the root, leaving out a first segment "My Drive": the alias is
    optional, and only the first segment is taken for it. *)
Theorem resolve_joined_segments
    (find_folder : string → string → string + option string)
    (segments : list string) :
  Forall is_segment segments →
  resolve_folder_path find_folder (String.concat "/" segments)
  = navigate find_folder "root" (without_alias segments).
Proof.
  intros Hsegs. unfold resolve_folder_path.
  rewrite strip_segments by done.
  destruct segments as [|seg segs]; [reflexivity|].
  rewrite split_on_concat; [|by eapply Forall_impl; [exact Hsegs|intros ? []]|done].
  unfold without_alias. by destruct (bool_decide (seg = "My Drive")).
Qed.

(** X18. A [/] in front of a path or behind it does not change what the
    path resolves to. *)
Theorem resolve_ignores_outer_slashes
    (find_folder : string → string → string + option string)
    (folder_path : string) :
  resolve_folder_path find_folder ("/" +:+ folder_path)
  = resolve_folder_path find_folder folder_path
  ∧ resolve_folder_path find_folder (folder_path +:+ "/")
    = resolve_folder_path find_folder folder_path.
Proof.
  unfold resolve_folder_path. split.
  - reflexivity.
  - by rewrite strip_snoc.
Qed.

(** X19. Every path that [main] takes from the paths option is
    non-empty, has no whitespace at either end and holds no comma: empty
    items are dropped, and a folder whose name holds a comma cannot be
    given. *)
Theorem parse_paths_clean (paths : string) :
  Forall (λ p, p ≠ "" ∧ strip is_space p = p
               ∧ has_char (is_char ",") p = false)
         (parse_paths paths).
Proof.
  unfold parse_paths. apply Forall_forall. intros p Hin.
  apply list_elem_of_filter in Hin as [Hne Hin].
  apply list_elem_of_fmap in Hin as (piece & -> & Hpiece).
  split; [by apply nonempty_true|]. split; [apply strip_idem|].
  unfold strip. apply has_char_rstrip, has_char_lstrip.
  pose proof (split_on_pieces "," paths) as Hall.
  rewrite Forall_forall in Hall. by apply Hall.
Qed.

(** X20. Names that are non-empty, without whitespace at either end and
    without comma, joined by commas, are read back from the paths option
    as they are and in order. *)
Theorem parse_paths_of_joined (names : list string) :
  Forall (λ p, p ≠ "" ∧ strip is_space p = p
               ∧ has_char (is_char ",") p = false) names →
  parse_paths (String.concat "," names) = names.
Proof.
  intros Hnames. unfold parse_paths.
  destruct names as [|name names]; [reflexivity|].
  rewrite split_on_concat;
    [|by eapply Forall_impl; [exact Hnames|intros ? (_ & _ & ?)]|done].
  induction Hnames as [|p ps (Hne & Hstrip & _) _ IH]; [done|].
  rewrite fmap_cons, filter_cons, Hstrip.
  rewrite decide_True by by apply nonempty_true.
  f_equal. exact IH.
Qed.

Lemma resolve_joined_segments_witness :
  resolve_folder_path find_sample
    (String.concat "/" ["My Drive"; "Photos"; "2024"])
  = navigate find_sample "root" (without_alias ["My Drive"; "Photos"; "2024"]).
Proof.
  apply (resolve_joined_segments find_sample ["My Drive"; "Photos"; "2024"]).
  repeat constructor; discriminate.
Defined.

Lemma parse_paths_of_joined_witness :
  parse_paths (String.concat "," ["My Drive/Photos"; "Pictures/2024"])
  = ["My Drive/Photos"; "Pictures/2024"].
Proof.
  apply (parse_paths_of_joined ["My Drive/Photos"; "Pictures/2024"]).
  repeat constructor; discriminate.
Defined.

End PathsProps.

(* ===================================================================== *)
(** ** Properties of the text files                                      *)
(* ===================================================================== *)

Module ReportsProps.
Import Photos Fixtures Text Reports Samples ScanProps UploadProps TextProps.

Lemma has_char_weaken (P Q : ascii → bool) (s : string) :
  (∀ c, Q c = true → P c = true) →
  has_char P s = false → has_char Q s = false.
Proof.
  intros Himp. induction s as [|c s IH]; [done|]. simpl.
  intros [Hc Hs]%orb_false_iff. rewrite (IH Hs), orb_false_r.
  destruct (Q c) eqn:Hq; [|done]. apply Himp in Hq. congruence.
Qed.

Lemma ends_line_is_space (c : ascii) : ends_line c = true → is_space c = true.
Proof.
  unfold ends_line. intros [H|H]%orb_true_iff;
    apply bool_decide_eq_true in H; by subst.
Qed.

Lemma ends_line_breaks_line (c : ascii) :
  ends_line c = true → breaks_line c = true.
Proof. unfold ends_line, breaks_line. intros ->. done. Qed.

Lemma bar_breaks_line (c : ascii) : is_char "|" c = true → breaks_line c = true.
Proof.
  unfold is_char, breaks_line. intros ->. by rewrite orb_true_r.
Qed.

Lemma pretty_N_go_no_char (P : ascii → bool) (x : N) :
  (∀ d, P (pretty_N_char d) = false) →
  ∀ s, has_char P s = false → has_char P (pretty_N_go x s) = false.
Proof.
  intros Hdigit. induction (N.lt_wf_0 x) as [x _ IH]. intros s Hs.
  destruct (decide (x = 0)%N) as [->|Hx]; [by rewrite pretty_N_go_0|].
  rewrite pretty_N_go_step by lia. apply IH.
  - apply N.div_lt; lia.
  - simpl. by rewrite Hdigit, Hs.
Qed.

Lemma pretty_nat_no_char (P : ascii → bool) (n : nat) :
  (∀ d, P (pretty_N_char d) = false) → has_char P (pretty n) = false.
Proof.
  intros Hdigit. unfold pretty, pretty_nat, pretty, pretty_N.
  destruct (decide (N.of_nat n = 0%N)).
  - simpl. pose proof (Hdigit 0%N) as H0. simpl in H0. by rewrite H0.
  - by apply pretty_N_go_no_char.
Qed.

Lemma digits_end_no_line (d : N) : ends_line (pretty_N_char d) = false.
Proof. unfold pretty_N_char. by repeat case_match. Qed.

Lemma readlines_line (line rest : string) :
  has_char ends_line line = false →
  readlines (line +:+ nl +:+ rest) = (line +:+ nl) :: readlines rest.
Proof.
  induction line as [|c line IH]; intros Hline.
  - reflexivity.
  - simpl in Hline. apply orb_false_iff in Hline as [Hc Hline].
    unfold ends_line in Hc. apply orb_false_iff in Hc as [Hlf Hcr].
    rewrite !string_append_cons. simpl readlines.
    rewrite Hlf, Hcr, (IH Hline). reflexivity.
Qed.

Lemma readlines_blank (rest : string) :
  readlines (nl +:+ rest) = nl :: readlines rest.
Proof. exact (readlines_line "" rest eq_refl). Qed.

Lemma parse_line_comment (rest : string) : parse_line (String "#" rest) = None.
Proof.
  unfold parse_line.
  destruct (strip_keeps_head is_space "#" rest eq_refl) as (kept & ->).
  reflexivity.
Qed.

(** The text of a photo line before its line feed. *)
Lemma photos_txt_line_fields (photo : Drive.PhotoData) :
  photos_txt_line photo
  = (Drive.pd_id photo
     +:+ String "|" (Drive.pd_path photo
     +:+ String "|" (Drive.pd_mimeType photo
     +:+ String "|" (str_of_option (Drive.pd_md5Checksum photo)))))
    +:+ nl.
Proof.
  unfold photos_txt_line.
  change ("|" +:+ ?t) with (String "|" t).
  rewrite !string_append_assoc, !string_append_cons, !string_append_assoc.
  rewrite !string_append_cons, !string_append_assoc. reflexivity.
Qed.

Lemma rstrip_field (P : ascii → bool) (a : string) (c : ascii) (t : string) :
  P c = false → rstrip P t = t →
  rstrip P (a +:+ String c t) = a +:+ String c t.
Proof.
  intros Hc Ht.
  assert (rstrip P (String c t) = String c t) as Hb.
  { simpl. rewrite Ht. destruct t; [by rewrite Hc|done]. }
  rewrite rstrip_app; by rewrite Hb.
Qed.

Lemma starts_with_char_field (c sep : ascii) (a t : string) :
  starts_with_char c a = false → sep ≠ c →
  starts_with_char c (a +:+ String sep t) = false.
Proof.
  intros Ha Hsep. destruct a as [|x a]; simpl.
  - by apply bool_decide_eq_false.
  - done.
Qed.

Lemma parse_photo_line (photo : Drive.PhotoData) :
  plain photo → parse_line (photos_txt_line photo) = Some (read_back photo).
Proof.
  intros (Hid_sp & Hid_bar & Hid_hash & Hpath & Hmime & Hmd5_sp & Hmd5_bar).
  rewrite photos_txt_line_fields. unfold parse_line, nl, read_back.
  rewrite strip_snoc by done.
  set (id := Drive.pd_id photo) in *. set (path := Drive.pd_path photo) in *.
  set (mime := Drive.pd_mimeType photo) in *.
  set (md5 := str_of_option (Drive.pd_md5Checksum photo)) in *.
  assert (strip is_space (id +:+ String "|" (path +:+ String "|"
            (mime +:+ String "|" md5)))
          = id +:+ String "|" (path +:+ String "|" (mime +:+ String "|" md5)))
    as ->.
  { unfold strip. rewrite lstrip_no_char_prefix by done.
    do 3 (apply rstrip_field; [done|]). by apply rstrip_no_char. }
  assert (nonempty (id +:+ String "|" (path +:+ String "|"
            (mime +:+ String "|" md5))) = true) as ->.
  { by destruct id. }
  rewrite starts_with_char_field by done. simpl.
  rewrite split_on_app by done.
  rewrite split_on_app
    by (eapply has_char_weaken; [apply bar_breaks_line|done]).
  rewrite split_on_app
    by (eapply has_char_weaken; [apply bar_breaks_line|done]).
  rewrite split_on_no_char by done. reflexivity.
Qed.

Lemma photo_line_ends_no_line (photo : Drive.PhotoData) :
  plain photo →
  has_char ends_line
    (Drive.pd_id photo
     +:+ String "|" (Drive.pd_path photo
     +:+ String "|" (Drive.pd_mimeType photo
     +:+ String "|" (str_of_option (Drive.pd_md5Checksum photo))))) = false.
Proof.
  intros (Hid_sp & _ & _ & Hpath & Hmime & Hmd5_sp & _).
  rewrite has_char_app. simpl. rewrite has_char_app. simpl.
  rewrite has_char_app. simpl.
  rewrite (has_char_weaken _ _ _ ends_line_is_space Hid_sp).
  rewrite (has_char_weaken _ _ _ ends_line_breaks_line Hpath).
  rewrite (has_char_weaken _ _ _ ends_line_breaks_line Hmime).
  rewrite (has_char_weaken _ _ _ ends_line_is_space Hmd5_sp).
  reflexivity.
Qed.

Lemma omap_cons_Some {A C} (f : A → option C) (x : A) (y : C) (l : list A) :
  f x = Some y → omap f (x :: l) = y :: omap f l.
Proof. intros H. simpl. by rewrite H. Qed.

Lemma omap_cons_None {A C} (f : A → option C) (x : A) (l : list A) :
  f x = None → omap f (x :: l) = omap f l.
Proof. intros H. simpl. by rewrite H. Qed.

Lemma load_photo_lines (photos : list Drive.PhotoData) :
  Forall plain photos →
  load_photos_txt (String.concat "" (map photos_txt_line photos))
  = map read_back photos.
Proof.
  unfold load_photos_txt.
  induction 1 as [|photo photos Hphoto _ IH]; [reflexivity|].
  assert (String.concat "" (map photos_txt_line (photo :: photos))
          = photos_txt_line photo
            +:+ String.concat "" (map photos_txt_line photos)) as ->.
  { simpl. destruct (map photos_txt_line photos); [|reflexivity].
    simpl. by rewrite string_append_nil_r. }
  pose proof (parse_photo_line photo Hphoto) as Hparse.
  rewrite photos_txt_line_fields in *.
  rewrite string_append_assoc.
  rewrite readlines_line by by apply photo_line_ends_no_line.
  by rewrite (omap_cons_Some _ _ _ _ Hparse), IH.
Qed.

(** X21. When photos_metadata.json cannot be used, [load_photos_list]
    reads from the photos.txt that [write_results] wrote one photo per
    record, in order, with the same id, path and MIME type, for records
    whose fields hold no [|], no line break, and (id and checksum) no
    whitespace.  The checksum is read back as written, so a record
    without checksum, written as None, comes back with the checksum text
    "None". *)
Theorem photos_txt_reads_back (not_found : string)
    (photos : list Drive.PhotoData) :
  Forall plain photos →
  load_photos_list not_found None (Some (photos_txt photos))
  = inr (map read_back photos).
Proof.
  intros Hplain. unfold load_photos_list. f_equal.
  rewrite <- (load_photo_lines photos Hplain).
  unfold load_photos_txt, photos_txt.
  rewrite !string_append_assoc.
  rewrite (readlines_line "# Google Drive Photos") by reflexivity.
  rewrite <- (string_append_assoc (pretty (length photos)) " photos").
  rewrite <- (string_append_assoc "# Total: ").
  rewrite (readlines_line ("# Total: " +:+ pretty (length photos)
                           +:+ " photos")).
  2: { rewrite has_char_app. simpl. rewrite has_char_app.
       rewrite (pretty_nat_no_char _ _ digits_end_no_line). reflexivity. }
  rewrite (readlines_line "# Format: file_id|path|mime_type|md5_checksum")
    by reflexivity.
  rewrite readlines_blank.
  rewrite omap_cons_None by apply parse_line_comment.
  rewrite omap_cons_None by apply parse_line_comment.
  rewrite omap_cons_None by apply parse_line_comment.
  rewrite omap_cons_None by reflexivity.
  reflexivity.
Qed.

Lemma photos_txt_reads_back_witness :
  load_photos_list "not found" None
    (Some (photos_txt [record_with_md5; record_without_md5]))
  = inr [ mkPhoto "id1" "My Drive/Photos/a.jpg" "image/jpeg"
                  (Some (PyStr "abc123"));
          mkPhoto "id2" "My Drive/Photos/b c.png" "image/png"
                  (Some (PyStr "None")) ].
Proof.
  apply (photos_txt_reads_back "not found"
           [record_with_md5; record_without_md5]).
  repeat constructor.
Defined.

Lemma counts_of_consistent (results : list UploadResult) :
  Forall result_consistent results →
  success_count results + skipped_count results + fail_count results
  = length results.
Proof.
  unfold success_count, skipped_count, fail_count.
  induction 1 as [|r rs (b & st & _ & Hst & _) _ IH]; [reflexivity|].
  rewrite !filter_cons.
  assert (∀ st', has_status st' r
                 = bool_decide (status_text st = status_text st')) as Hhas.
  { intros st'. unfold has_status. by rewrite Hst. }
  rewrite !Hhas. destruct st; simpl; lia.
Qed.

Lemma report_line_of_consistent (r : UploadResult) :
  result_consistent r →
  ∃ st,
    r_status r = Some st
    ∧ report_line r
      = inr (status_text st +:+ "|" +:+ r_path r +:+ "|"
             +:+ match st with
                 | SKIPPED_DUPLICATE =>
                     "md5:" +:+ str_of_pyval (r_md5Checksum r)
                 | SUCCESS => default "" (r_photos_id r)
                 | FAILED | ERROR => default "Unknown error" (r_error r)
                 end
             +:+ nl).
Proof.
  intros (b & st & Hb & Hst & Hiff). exists st. split; [done|].
  unfold report_line, has_status. rewrite Hst, Hb.
  destruct st; simpl.
  - destruct b; [reflexivity|]. destruct Hiff as [_ Hiff].
    discriminate Hiff. by left.
  - reflexivity.
  - destruct b; [|reflexivity]. destruct Hiff as [Hiff _].
    destruct (Hiff eq_refl); discriminate.
  - destruct b; [|reflexivity]. destruct Hiff as [Hiff _].
    destruct (Hiff eq_refl); discriminate.
Qed.

Lemma report_lines_of_consistent (results : list UploadResult) :
  Forall result_consistent results →
  ∃ records,
    report_lines results = (String.concat "" records, None)
    ∧ Forall2 (λ r record,
                 ∃ st,
                   r_status r = Some st
                   ∧ record
                     = status_text st +:+ "|" +:+ r_path r +:+ "|"
                       +:+ match st with
                           | SKIPPED_DUPLICATE =>
                               "md5:" +:+ str_of_pyval (r_md5Checksum r)
                           | SUCCESS => default "" (r_photos_id r)
                           | FAILED | ERROR =>
                               default "Unknown error" (r_error r)
                           end
                       +:+ nl) results records.
Proof.
  induction 1 as [|r results Hcons _ IH].
  - exists []. split; [reflexivity|constructor].
  - destruct IH as (records & Hrecords & Hall).
    destruct (report_line_of_consistent r Hcons) as (st & Hst & Hline).
    eexists (_ :: records). split.
    + simpl report_lines. rewrite Hline, Hrecords.
      destruct records; [simpl; by rewrite string_append_nil_r|reflexivity].
    + constructor; [|done]. by exists st.
Qed.

(** X22. For the results of a run, the three counts of the report
    (uploaded, skipped, failed) add up to the number of photos. *)
Theorem report_counts_add_up {B : Backend} (photos : list Photo)
    (s s' : Sys B) (results : list UploadResult) :
  upload_all photos s = (inr results, s') →
  success_count results + skipped_count results + fail_count results
  = length photos.
Proof.
  intros Hrun. pose proof (upload_all_spec photos s) as Hall.
  destruct (create_album s) as [[e|a] s1].
  { rewrite Hall in Hrun. discriminate. }
  destruct Hall as (rs & s2 & evs & Heq & _ & _ & _ & Hf2 & _).
  rewrite Heq in Hrun. injection Hrun as -> ->.
  rewrite counts_of_consistent.
  - symmetry. by eapply Forall2_length.
  - eapply Forall2_Forall_r; [exact Hf2|]. apply Forall_forall.
    intros photo _ r [_ Hcons]. exact Hcons.
Qed.

(** X23. For the results of a run, [write_results] raises no [KeyError]:
    after the header it writes one record per photo, in the order of the
    list.  A record is [status|path|extra] followed by a line feed, where
    [status] is the status of the photo's result, [path] the path of the
    photo, and [extra] is [md5:] and the checksum for SKIPPED_DUPLICATE,
    the [photos_id] for SUCCESS, and the error text, written as it is,
    for FAILED and ERROR. *)
Theorem report_is_complete {B : Backend} (photos : list Photo)
    (s s' : Sys B) (results : list UploadResult) (generated : datetime) :
  upload_all photos s = (inr results, s') →
  ∃ records,
    write_results generated (sys_self s')
    = (report_header generated (sys_self s') +:+ String.concat "" records,
       None)
    ∧ Forall2 (λ photo r, r_path r = path photo) photos results
    ∧ Forall2 (λ r record,
                 ∃ st,
                   r_status r = Some st
                   ∧ record
                     = status_text st +:+ "|" +:+ r_path r +:+ "|"
                       +:+ match st with
                           | SKIPPED_DUPLICATE =>
                               "md5:" +:+ str_of_pyval (r_md5Checksum r)
                           | SUCCESS => default "" (r_photos_id r)
                           | FAILED | ERROR =>
                               default "Unknown error" (r_error r)
                           end
                       +:+ nl) results records.
Proof.
  intros Hrun. pose proof (upload_all_spec photos s) as Hall.
  destruct (create_album s) as [[e|a] s1].
  { rewrite Hall in Hrun. discriminate. }
  destruct Hall as (rs & s2 & evs & Heq & _ & Hres & _ & Hf2 & _).
  rewrite Heq in Hrun. injection Hrun as -> ->.
  destruct (report_lines_of_consistent results) as (records & Hl & Hrec).
  { eapply Forall2_Forall_r; [exact Hf2|]. apply Forall_forall.
    intros photo _ r [_ Hcons]. exact Hcons. }
  exists records. split; [|split; [|done]].
  - unfold write_results. by rewrite Hres, Hl.
  - eapply Forall2_impl; [exact Hf2|]. by intros photo r [(_ & Hpath & _) _].
Qed.

Lemma report_counts_add_up_witness :
  success_count (returned ok_run2.1) + skipped_count (returned ok_run2.1)
  + fail_count (returned ok_run2.1) = length [photo1; photo2].
Proof.
  apply (report_counts_add_up (B:=all_ok) [photo1; photo2]
           (init (B:=all_ok) None true
                 (Some (uploaded_photos (sys_self ok_run1.2))) 0%nat)
           ok_run2.2).
  vm_compute. reflexivity.
Defined.

Lemma report_is_complete_witness :
  ∃ records,
    write_results (mkDatetime 2024 3 5 10 0 0 0) (sys_self batch_500_run.2)
    = (report_header (mkDatetime 2024 3 5 10 0 0 0)
         (sys_self batch_500_run.2) +:+ String.concat "" records, None)
    ∧ Forall2 (λ photo r, r_path r = path photo) [photo1]
              (returned batch_500_run.1)
    ∧ Forall2 (λ r record,
                 ∃ st,
                   r_status r = Some st
                   ∧ record
                     = status_text st +:+ "|" +:+ r_path r +:+ "|"
                       +:+ match st with
                           | SKIPPED_DUPLICATE =>
                               "md5:" +:+ str_of_pyval (r_md5Checksum r)
                           | SUCCESS => default "" (r_photos_id r)
                           | FAILED | ERROR =>
                               default "Unknown error" (r_error r)
                           end
                       +:+ nl) (returned batch_500_run.1) records.
Proof.
  apply (report_is_complete (B:=batch_500) [photo1]
           (init (B:=batch_500) None true None 0%nat) batch_500_run.2
           (returned batch_500_run.1)).
  vm_compute. reflexivity.
Defined.

End ReportsProps.

(* ===================================================================== *)
(** ** Properties of the paginated listing                               *)
(* ===================================================================== *)

Module ListingProps.
Import Listing.

(** X24. When the service hands out finitely many pages for a folder,
    [list_files_in_folder] yields the files of all of them, in order, and
    stops at the first page without token; when a request raises, the
    files of the pages before it have been yielded and the exception ends
    the listing.  One unit of fuel per request suffices. *)
Theorem listing_yields_all_pages {Item : Type}
    (list_page : string → option string
                 → string + (list Item * option string))
    (folder_id : string) (pages : list (list Item * option string))
    (exn : option string) :
  ∀ (page_token : option string) (fuel : nat),
    served Item list_page folder_id page_token pages exn →
    length pages < fuel →
    list_files_in_folder Item list_page fuel folder_id page_token
    = Some (concat (map fst pages), exn).
Proof.
  induction pages as [|[files next] pages IH]; intros page_token fuel Hserved Hfuel.
  - destruct fuel as [|fuel]; [simpl in Hfuel; lia|].
    simpl in *. destruct exn as [e|]; [|done]. by rewrite Hserved.
  - destruct fuel as [|fuel]; [simpl in Hfuel; lia|].
    simpl in Hserved, Hfuel. destruct Hserved as [Hpage Hrest].
    simpl. rewrite Hpage.
    destruct (Photos.truthy_opt next).
    + rewrite (IH next fuel Hrest) by lia. reflexivity.
    + destruct Hrest as [-> ->]. simpl. by rewrite app_nil_r.
Qed.

Lemma listing_yields_all_pages_witness :
  list_files_in_folder nat two_pages 3 "folder" None
  = Some (concat (map fst [([1; 2], Some "t1"); ([3], None)]), None).
Proof.
  apply (listing_yields_all_pages two_pages "folder"
           [([1; 2], Some "t1"); ([3], None)] None None 3).
  - simpl. repeat split.
  - simpl. lia.
Defined.

End ListingProps.
